(** * Windowed performance analytics of the performance dashboard
    (src/unnamed/part_002: computeMetrics, computeRelativeMetrics,
    computeMaxDrawdown, buildChartData, findPositionAt, priceAt,
    computeHoldingPerformance).

    Modelling choices:
    - JavaScript numbers are modelled as exact rationals [Q].  The
      divisions that are evaluated are either guarded in the source by a
      positivity test or excluded by hypotheses, so [Q]'s [x / 0 = 0]
      convention is never observed where it would differ from IEEE
      ([Infinity]/[NaN]) in a way that matters to a statement.
    - [Math.sqrt] and [Math.pow] are section parameters [sqrt] and [pow]:
      every statement holds for every choice of them.
    - An ISO date string "YYYY-MM-DD" is modelled by its day number [Z]
      (days since the epoch).  This map is injective and order preserving,
      so string comparison ([point.date <= target]) and string keys of
      objects keyed by dates behave as comparison and keys on [Z].
      [parseDate] yields milliseconds, as [Date.getTime] does. *)

From Stdlib Require Import QArith Qabs Lqa ZArith List Lia.
From stdpp Require Import base gmap strings.
Import ListNotations.

Open Scope Q_scope.

(** ** Data model (types at the head of part_002) *)

Definition Date := Z.           (* milliseconds, as [Date.getTime()] *)
Definition DateStr := Z.        (* an ISO date string, by its day number *)

Record PricePoint := mkPricePoint { pp_date : DateStr; pp_value : Q }.

Record PortfolioPoint := mkPortfolioPoint {
  pt_date : DateStr; pt_value : Q; pt_equity : Q; pt_cash : Q }.

Record PositionState := mkPositionState {
  ps_date : DateStr; ps_shares : gmap string Q; ps_cash : Q }.

Record HoldingSummary := mkHoldingSummary {
  hs_symbol : string;
  hs_description : string;
  hs_shares : Q;
  hs_current_value : Q;
  hs_cost_basis : option Q;
  hs_gain_abs : option Q;
  hs_gain_pct : option Q }.

Record PerformanceResponse := mkPerformanceResponse {
  pr_start_date : string;
  pr_end_date : string;
  pr_symbols : list string;
  pr_benchmarks : list string;
  pr_portfolio : list PortfolioPoint;
  pr_benchmark_series : gmap string (list PricePoint);
  pr_price_series : gmap string (list PricePoint);
  pr_positions : list PositionState;
  pr_holdings : list HoldingSummary;
  pr_warnings : list string }.

Record Metrics := mkMetrics {
  totalReturn : option Q;
  totalAbs : option Q;
  annualized : option Q;
  volatility : option Q;
  maxDrawdown : option Q;
  sharpe : option Q;
  beta : option Q;
  correlation : option Q }.

Arguments mkPricePoint pp_date%_Z pp_value%_Q.
Arguments mkPortfolioPoint pt_date%_Z pt_value%_Q pt_equity%_Q pt_cash%_Q.
Arguments mkPositionState ps_date%_Z ps_shares ps_cash%_Q.

(** Strict comparison of JS numbers as a boolean. *)
Definition Qltb (x y : Q) : bool := negb (Qle_bool y x).

(** [new Date(`${raw}T00:00:00Z`)]: midnight UTC of the day, in ms. *)
Definition parseDate (raw : DateStr) : Date := (raw * 86400000)%Z.
Arguments parseDate raw%_Z.

(** [values.reduce((sum, v) => sum + v, 0)] *)
Definition sumQ (l : list Q) : Q := fold_left (fun s v => s + v) l 0.

Definition lenQ {A} (l : list A) : Q := inject_Z (Z.of_nat (length l)).

Section Analytics.

(** [Math.sqrt] and [Math.pow]. *)
Variable sqrt : Q -> Q.
Variable pow : Q -> Q -> Q.

(** [function stdDev(values)] *)
Definition stdDev (values : list Q) : Q :=
  match values with
  | [] => 0
  | _ =>
    let mean := sumQ values / lenQ values in
    let variance :=
      fold_left (fun s v => s + (v - mean) * (v - mean)) values 0 / lenQ values in
    sqrt variance
  end.

(** The [for (const v of values)] loop of [computeMaxDrawdown], with the
    state [(maxPeak, maxDD)].  Division is Q's, where [x / 0 = 0]: with a
    zero peak and a negative value JS gives [-Infinity] where this gives 0,
    so only results for a positive first value (or no negative value after
    a zero peak) carry over to JS. *)
Fixpoint drawdown_loop (maxPeak maxDD : Q) (values : list Q) : Q :=
  match values with
  | [] => maxDD
  | v :: rest =>
    let maxPeak' := if Qltb maxPeak v then v else maxPeak in
    let dd := (v - maxPeak') / maxPeak' in
    let maxDD' := if Qltb dd maxDD then dd else maxDD in
    drawdown_loop maxPeak' maxDD' rest
  end.

(** [function computeMaxDrawdown(values)] *)
Definition computeMaxDrawdown (values : list Q) : option Q :=
  match values with
  | [] => None
  | v0 :: _ => Some (Qabs (drawdown_loop v0 0 values))
  end.

(** [function emptyMetrics()] *)
Definition emptyMetrics : Metrics :=
  mkMetrics None None None None None None None None.

(** The loop of [computeMetrics] pushing [curr / prev - 1] for each
    consecutive pair ([prev] is [series[i - 1].value]). *)
Fixpoint returns_loop (prev : Q) (rest : list PortfolioPoint) : list Q :=
  match rest with
  | [] => []
  | p :: rest' =>
    let curr := pt_value p in
    (if Qltb 0 prev then [curr / prev - 1] else []) ++ returns_loop curr rest'
  end.

Definition series_returns (series : list PortfolioPoint) : list Q :=
  match series with
  | [] => []
  | p0 :: rest => returns_loop (pt_value p0) rest
  end.

(** [series[series.length - 1]] for a non-empty series. *)
Definition last_point (p0 : PortfolioPoint) (rest : list PortfolioPoint) :=
  List.last rest p0.

(** [const days = (parseDate(end.date).getTime() - parseDate(start.date).getTime())
    / (1000 * 60 * 60 * 24)] *)
Definition span_days (start end_ : PortfolioPoint) : Q :=
  inject_Z (parseDate (pt_date end_) - parseDate (pt_date start))
  / inject_Z (1000 * 60 * 60 * 24).

(** [function computeMetrics(series)] *)
Definition computeMetrics (series : list PortfolioPoint) : Metrics :=
  match series with
  | [] | [_] => emptyMetrics
  | start :: rest =>
    let end_ := last_point start rest in
    let days := span_days start end_ in
    let totalReturn :=
      if Qltb 0 (pt_value start) then Some (pt_value end_ / pt_value start - 1)
      else None in
    let totalAbs := pt_value end_ - pt_value start in
    let returns := series_returns series in
    let volatility :=
      match returns with [] => None | _ => Some (stdDev returns * sqrt 252) end in
    let avgDaily :=
      match returns with [] => None | _ => Some (sumQ returns / lenQ returns) end in
    let sharpe :=
      match avgDaily, volatility with
      | Some a, Some v => if Qltb 0 v then Some (a * 252 / v) else None
      | _, _ => None
      end in
    let annualized :=
      match totalReturn with
      | Some tr => if Qle_bool 30 days then Some (pow (1 + tr) (365 / days) - 1)
                   else None
      | None => None
      end in
    let maxDrawdown := computeMaxDrawdown (map pt_value series) in
    mkMetrics totalReturn (Some totalAbs) annualized volatility maxDrawdown
              sharpe None None
  end.

(** The [benchMap] of [computeRelativeMetrics]: [benchMap[b.date] = b.value]
    for each benchmark point in order, so a later duplicate date wins. *)
Definition benchMap_of (benchmark : list PricePoint) : gmap DateStr Q :=
  fold_left (fun m b => <[pp_date b := pp_value b]> m) benchmark ∅.

(** The [for (let i = 1; ...)] loop of [computeRelativeMetrics], with the
    state [(portReturns, benchReturns)]; [prev] is [portfolio[i - 1]]. *)
Fixpoint relative_loop (benchMap : gmap DateStr Q) (prev : PortfolioPoint)
    (rest : list PortfolioPoint) (portReturns benchReturns : list Q)
    : list Q * list Q :=
  match rest with
  | [] => (portReturns, benchReturns)
  | cur :: rest' =>
    match benchMap !! pt_date cur, benchMap !! pt_date prev with
    | Some benchVal, Some benchPrev =>
      let portPrev := pt_value prev in
      let portCurr := pt_value cur in
      if Qle_bool portPrev 0 || Qle_bool benchPrev 0 then
        relative_loop benchMap cur rest' portReturns benchReturns
      else
        relative_loop benchMap cur rest'
          (portReturns ++ [portCurr / portPrev - 1])
          (benchReturns ++ [benchVal / benchPrev - 1])
    | _, _ => relative_loop benchMap cur rest' portReturns benchReturns
    end
  end.

(** The two aligned return arrays built by [computeRelativeMetrics]. *)
Definition aligned_returns (portfolio : list PortfolioPoint)
    (benchmark : list PricePoint) : list Q * list Q :=
  match portfolio with
  | [] => ([], [])
  | p0 :: rest => relative_loop (benchMap_of benchmark) p0 rest [] []
  end.

(** The guard [!portReturns.length || portReturns.length !== benchReturns.length]. *)
Definition relative_guard (rs : list Q * list Q) : bool :=
  match rs.1 with
  | [] => true
  | _ => negb (Nat.eqb (length rs.1) (length rs.2))
  end.

(** [function correlation(a, b)] *)
Definition correlation_calc (a b : list Q) : option Q :=
  if negb (Nat.eqb (length a) (length b)) || Nat.eqb (length a) 0 then None
  else
    let meanA := sumQ a / lenQ a in
    let meanB := sumQ b / lenQ b in
    let '(numerator, denomA, denomB) :=
      fold_left (fun '(n, da2, db2) '(x, y) =>
                   let da := x - meanA in
                   let db := y - meanB in
                   (n + da * db, da2 + da * da, db2 + db * db))
                (combine a b) (0, 0, 0) in
    let denom := sqrt (denomA * denomB) in
    if Qeq_bool denom 0 then None else Some (numerator / denom).

(** [function betaCalc(a, b)] *)
Definition betaCalc (a b : list Q) : option Q :=
  if negb (Nat.eqb (length a) (length b)) || Nat.eqb (length a) 0 then None
  else
    let meanA := sumQ a / lenQ a in
    let meanB := sumQ b / lenQ b in
    let '(cov, varB) :=
      fold_left (fun '(c, vb) '(x, y) =>
                   (c + (x - meanA) * (y - meanB), vb + (y - meanB) * (y - meanB)))
                (combine a b) (0, 0) in
    if Qeq_bool varB 0 then None else Some (cov / varB).

(** [function computeRelativeMetrics(portfolio, benchmark)], returning
    [(beta, correlation)]. *)
Definition computeRelativeMetrics (portfolio : list PortfolioPoint)
    (benchmark : list PricePoint) : option Q * option Q :=
  let rs := aligned_returns portfolio benchmark in
  if relative_guard rs then (None, None)
  else (betaCalc rs.1 rs.2, correlation_calc rs.1 rs.2).

End Analytics.

(** ** Chart rows ([buildChartData]) *)

Inductive ViewMode := VMvalue | VMindexed.

(** A field of a chart row: the [date] string or a number. *)
Inductive Cell := CStr (d : DateStr) | CNum (q : Q).

(** A JS object with string keys, in insertion order. *)
Definition Obj (V : Type) := list (string * V).

(** [o[k] = v]: overwrite in place, or append a new key. *)
Fixpoint obj_set {V} (k : string) (v : V) (o : Obj V) : Obj V :=
  match o with
  | [] => [(k, v)]
  | (k', v') :: o' => if String.eqb k k' then (k, v) :: o' else (k', v') :: obj_set k v o'
  end.

(** [o[k]], [undefined] as [None]. *)
Fixpoint obj_get {V} (k : string) (o : Obj V) : option V :=
  match o with
  | [] => None
  | (k', v') :: o' => if String.eqb k k' then Some v' else obj_get k o'
  end.

(** [x || 1] for a number [x] (0 is falsy). *)
Definition or_one (x : Q) : Q := if Qeq_bool x 0 then 1 else x.

(** [series[0]?.value ?? 1] *)
Definition first_value_or_one (series : list PricePoint) : Q :=
  match series with
  | [] => 1
  | p :: _ => pp_value p
  end.

(** The loop of [lookupValue] (and of [priceAt]), with the state [price]. *)
Fixpoint lookup_loop (price : option Q) (series : list PricePoint) (target : Z)
    (date_of : DateStr -> Z) : option Q :=
  match series with
  | [] => price
  | point :: rest =>
    if Z.leb (date_of (pp_date point)) target
    then lookup_loop (Some (pp_value point)) rest target date_of
    else price
  end.

(** [const lookupValue = (series, target) => ...]; dates compared as strings. *)
Definition lookupValue (series : option (list PricePoint)) (target : DateStr)
    : option Q :=
  match series with
  | None => None
  | Some s => lookup_loop None s target (fun d => d)
  end.

(** [viewMode === "indexed" ? ((v / start - 1) * 100) : v] *)
Definition rebase (viewMode : ViewMode) (v start : Q) : Q :=
  match viewMode with
  | VMindexed => (v / start - 1) * 100
  | VMvalue => v
  end.

(** One iteration of the [Object.keys(...).forEach] loops that add the
    field [field] for series [key]. *)
Definition add_series_field (viewMode : ViewMode) (lookup : Obj (list PricePoint))
    (starts : Obj Q) (date : DateStr) (key field : string) (row : Obj Cell)
    : Obj Cell :=
  let val := lookupValue (obj_get key lookup) date in
  let start := match obj_get key starts with Some s => or_one s | None => 1 end in
  match val with
  | Some v => obj_set field (CNum (rebase viewMode v start)) row
  | None => row
  end.

(** The [Object.keys(lookup).forEach(key => ...)] loop adding the field
    [fld key] for each series [key]: [fld] is [key => key] for the
    benchmarks and [key => `Overlay-${key}`] for the overlays. *)
Definition add_series_fields (viewMode : ViewMode) (lookup : Obj (list PricePoint))
    (starts : Obj Q) (date : DateStr) (fld : string -> string) (row : Obj Cell)
    : Obj Cell :=
  fold_left (fun row key => add_series_field viewMode lookup starts date key (fld key) row)
            (map fst lookup) row.

(** The arrow function [p => { const row = { date: p.date }; ... return row; }]
    mapped over the portfolio. *)
Definition chart_row (viewMode : ViewMode) (baseStart : Q)
    (benchLookup : Obj (list PricePoint)) (benchmarkStarts : Obj Q)
    (overlayLookup : Obj (list PricePoint)) (overlayStarts : Obj Q)
    (p : PortfolioPoint) : Obj Cell :=
  let row := [("date"%string, CStr (pt_date p))] in
  let row := obj_set "Portfolio" (CNum (rebase viewMode (pt_value p) baseStart)) row in
  let row := add_series_fields viewMode benchLookup benchmarkStarts (pt_date p)
               (fun key => key) row in
  let row := add_series_fields viewMode overlayLookup overlayStarts (pt_date p)
               (fun key => "Overlay-" ++ key)%string row in
  row.

(** [function buildChartData({portfolio, benchmarks, overlays, viewMode})] *)
Definition buildChartData (portfolio : list PortfolioPoint)
    (benchmarks overlays : Obj (list PricePoint)) (viewMode : ViewMode)
    : list (Obj Cell) :=
  match portfolio with
  | [] => []
  | p0 :: _ =>
    let baseStart := or_one (pt_value p0) in
    let benchmarkStarts :=
      fold_left (fun o '(key, series) => obj_set key (first_value_or_one series) o)
                benchmarks [] in
    let overlayStarts :=
      fold_left (fun o '(key, series) => obj_set key (first_value_or_one series) o)
                overlays [] in
    let benchLookup :=
      fold_left (fun o '(k, series) => obj_set k series o) benchmarks [] in
    let overlayLookup :=
      fold_left (fun o '(k, series) => obj_set k series o) overlays [] in
    map (chart_row viewMode baseStart benchLookup benchmarkStarts overlayLookup
                   overlayStarts) portfolio
  end.

(** ** Holdings performance *)

(** [function findPositionAt(positions, target)] *)
Fixpoint findPositionAt_loop (current : option PositionState)
    (positions : list PositionState) (target : Date) : option PositionState :=
  match positions with
  | [] => current
  | pos :: rest =>
    if Z.leb (parseDate (ps_date pos)) target
    then findPositionAt_loop (Some pos) rest target
    else current
  end.

Definition findPositionAt (positions : list PositionState) (target : Date)
    : option PositionState :=
  findPositionAt_loop None positions target.

(** [function priceAt(series, target)] *)
Definition priceAt (series : option (list PricePoint)) (target : Date) : option Q :=
  match series with
  | None | Some [] => None
  | Some s => lookup_loop None s target parseDate
  end.

(** [a ?? b] *)
Definition nullish {A} (a : option A) (b : A) : A :=
  match a with Some x => x | None => b end.

(** The body of the [for (const holding of payload.holdings)] loop; [last_pos]
    is [positions[positions.length - 1]]. *)
Definition holding_row (payload : PerformanceResponse) (last_pos : PositionState)
    (start end_ : Date) (holding : HoldingSummary) : HoldingSummary :=
  let positions := pr_positions payload in
  let startState := findPositionAt positions start in
  let endState := nullish (findPositionAt positions end_) last_pos in
  let startShares :=
    match startState with
    | Some st => nullish (ps_shares st !! hs_symbol holding) 0
    | None => 0
    end in
  let endShares := nullish (ps_shares endState !! hs_symbol holding) 0 in
  let series := pr_price_series payload !! hs_symbol holding in
  let startPrice := nullish (priceAt series start) 0 in
  let endPrice := nullish (priceAt series end_) startPrice in
  let startValue := startShares * startPrice in
  let endValue := endShares * endPrice in
  let gainAbs := endValue - startValue in
  let gainPct := if Qltb 0 startValue then Some (gainAbs / startValue) else None in
  {| hs_symbol := hs_symbol holding;
     hs_description := hs_description holding;
     hs_shares := endShares;
     hs_current_value := endValue;
     hs_cost_basis := hs_cost_basis holding;
     hs_gain_abs := Some gainAbs;
     hs_gain_pct := gainPct |}.

(** Insertion of a later element into a list already ordered by the
    comparator [(a, b) => b.current_value - a.current_value]: it goes after
    every element that does not compare greater, as the stable
    [Array.prototype.sort] places it. *)
Fixpoint insert_by_value (x : HoldingSummary) (l : list HoldingSummary)
    : list HoldingSummary :=
  match l with
  | [] => [x]
  | y :: l' =>
    if Qle_bool (hs_current_value x) (hs_current_value y)
    then y :: insert_by_value x l'
    else x :: l
  end.

(** [results.sort((a, b) => b.current_value - a.current_value)] *)
Definition sort_by_value (l : list HoldingSummary) : list HoldingSummary :=
  fold_left (fun acc x => insert_by_value x acc) l [].

(** [function computeHoldingPerformance(payload, start, end)] *)
Definition computeHoldingPerformance (payload : PerformanceResponse)
    (start end_ : Date) : list HoldingSummary :=
  match pr_positions payload with
  | [] => []
  | p0 :: ps =>
    let last_pos := List.last ps p0 in
    sort_by_value (map (holding_row payload last_pos start end_) (pr_holdings payload))
  end.

(** ** Readings of the specification, to compare with the code *)

(** Consecutive pairs [(series[i-1], series[i])] of a series. *)
Definition consecutive_pairs {A} (l : list A) : list (A * A) := combine l (tl l).

(** Daily returns as the spec words them: [curr/prev - 1] for each
    consecutive pair with [prev > 0], the other pairs skipped. *)
Definition spec_daily_returns (series : list PortfolioPoint) : list Q :=
  map (fun '(prev, curr) => pt_value curr / pt_value prev - 1)
      (List.filter (fun '(prev, _) => Qltb 0 (pt_value prev)) (consecutive_pairs series)).

(** Population standard deviation (divide by N) of [xs], with [Math.sqrt]
    given as [sq]. *)
Definition spec_pop_stddev (sq : Q -> Q) (xs : list Q) : Q :=
  let mu := sumQ xs / lenQ xs in
  sq (sumQ (map (fun x => (x - mu) * (x - mu)) xs) / lenQ xs).

(** Calendar-day span between two sample dates. *)
Definition spec_calendar_days (first last : PortfolioPoint) : Z :=
  (pt_date last - pt_date first)%Z.

(** A non-decreasing list of values. *)
Fixpoint nondecreasing (l : list Q) : Prop :=
  match l with
  | x :: ((y :: _) as r) => x <= y /\ nondecreasing r
  | _ => True
  end.

(** A list that only decreases (weakly) from its first value. *)
Fixpoint nonincreasing (l : list Q) : Prop :=
  match l with
  | x :: ((y :: _) as r) => y <= x /\ nonincreasing r
  | _ => True
  end.

(** Largest and smallest value of a non-empty list. *)
Definition list_max (l : list Q) : Q :=
  match l with
  | [] => 0
  | x :: r => fold_left (fun a y => if Qle_bool a y then y else a) r x
  end.

Definition list_min (l : list Q) : Q :=
  match l with
  | [] => 0
  | x :: r => fold_left (fun a y => if Qle_bool a y then a else y) r x
  end.

(** The value the benchmark has at date [d] (its last point dated [d]). *)
Definition spec_bench_value_at (benchmark : list PricePoint) (d : DateStr) : option Q :=
  fold_left (fun acc b => if Z.eqb (pp_date b) d then Some (pp_value b) else acc)
            benchmark None.

(** Aligned return pairs as the spec words them: one pair per consecutive
    pair of portfolio dates at both of which the benchmark has a value, when
    both previous values are positive. *)
Definition spec_aligned_pairs (portfolio : list PortfolioPoint)
    (benchmark : list PricePoint) : list (Q * Q) :=
  flat_map (fun '(prev, cur) =>
      match spec_bench_value_at benchmark (pt_date cur),
            spec_bench_value_at benchmark (pt_date prev) with
      | Some bv, Some bp =>
        if Qltb 0 (pt_value prev) && Qltb 0 bp
        then [(pt_value cur / pt_value prev - 1, bv / bp - 1)]
        else []
      | _, _ => []
      end)
    (consecutive_pairs portfolio).

(** ** Window selection and page state of PerformancePage *)

(** [function filterSeries(series, start, end)]: [date_of] reads [p.date]. *)
Definition filterSeries {T} (date_of : T -> DateStr) (series : list T) (start end_ : Date)
    : list T :=
  List.filter (fun p => let d := parseDate (date_of p) in Z.leb start d && Z.leb d end_)
              series.

(** The [setSelectedBenchmarks] / [toggleOverlay] updater:
    [prev.includes(x) ? prev.filter((s) => s !== x) : [...prev, x]]. *)
Definition toggle (x : string) (prev : list string) : list string :=
  if existsb (String.eqb x) prev
  then List.filter (fun s => negb (String.eqb s x)) prev
  else prev ++ [x].

(** [type RangeKey = "1W" | "1M" | "3M" | "1Y" | "MAX"] *)
Inductive RangeKey := R1W | R1M | R3M | R1Y | RMAX.

(** The [delta] of [subtractRange]. *)
Definition range_delta (range : RangeKey) : Z :=
  match range with R1W => 7 | R1M => 30 | R3M => 90 | R1Y => 365 | RMAX => 0 end.

(** The [filteredBenchmarks] memo, once [payload] and [rangeBounds] are
    present: [out[b] = filterSeries(series, ...)] for each selected benchmark
    [b] whose series exists. *)
Definition filteredBenchmarks_of (benchmark_series : gmap string (list PricePoint))
    (selectedBenchmarks : list string) (startDate endDate : Date) : Obj (list PricePoint) :=
  fold_left (fun out b =>
      match benchmark_series !! b with
      | Some series => obj_set b (filterSeries pp_date series startDate endDate) out
      | None => out
      end) selectedBenchmarks [].

Section Page.

(** [d.setDate(d.getDate() - delta)] on a copy of [d]: calendar arithmetic
    in the local time zone, left as a parameter. *)
Variable setDateBack : Date -> Z -> Date.

(** [function subtractRange(end, range, minDate)] *)
Definition subtractRange (end_ : Date) (range : RangeKey) (minDate : Date) : Date :=
  let delta := range_delta range in
  let d := if Z.ltb 0 delta then setDateBack end_ delta else end_ in
  if Z.ltb d minDate then minDate else d.

(** The [rangeBounds] memo for a payload with date strings [start_date] and
    [end_date]: [(startDate, endDate)]. *)
Definition rangeBounds_of (start_date end_date : DateStr) (selectedRange : RangeKey)
    : Date * Date :=
  let endDate := parseDate end_date in
  let minDate := parseDate start_date in
  let startDate :=
    match selectedRange with
    | RMAX => minDate
    | _ => subtractRange endDate selectedRange minDate
    end in
  (startDate, endDate).

End Page.

Section Dashboard.

Variable sqrt : Q -> Q.
Variable pow : Q -> Q -> Q.

(** The [metrics] memo: [{ ...portfolioMetrics, ...benchmarkMetrics }], the
    benchmark being the first selected one ([selectedBenchmarks[0]], used
    when truthy) and its filtered series when present. *)
Definition dashboard_metrics (filteredPortfolio : list PortfolioPoint)
    (selectedBenchmarks : list string) (filteredBenchmarks : Obj (list PricePoint))
    : Metrics :=
  match filteredPortfolio with
  | [] => emptyMetrics
  | _ =>
    let portfolioMetrics := computeMetrics sqrt pow filteredPortfolio in
    let benchmarkSeries :=
      match selectedBenchmarks with
      | benchmarkKey :: _ =>
        if String.eqb benchmarkKey "" then None else obj_get benchmarkKey filteredBenchmarks
      | [] => None
      end in
    match benchmarkSeries with
    | Some bs =>
      let '(b, c) := computeRelativeMetrics sqrt filteredPortfolio bs in
      {| totalReturn := totalReturn portfolioMetrics;
         totalAbs := totalAbs portfolioMetrics;
         annualized := annualized portfolioMetrics;
         volatility := volatility portfolioMetrics;
         maxDrawdown := maxDrawdown portfolioMetrics;
         sharpe := sharpe portfolioMetrics;
         beta := b;
         correlation := c |}
    | None => portfolioMetrics
    end
  end.

End Dashboard.

(** ** Readings used by the additional properties *)

(** Dates of a list ascending (strictly, as the data model assumes: sorted,
    no duplicate dates). *)
Fixpoint ascending {T} (date_of : T -> DateStr) (l : list T) : Prop :=
  match l with
  | x :: ((y :: _) as r) => (date_of x < date_of y)%Z /\ ascending date_of r
  | _ => True
  end.

(** The last element of [l] satisfying [P] (last observation carried forward). *)
Definition last_such {T} (P : T -> bool) (l : list T) : option T :=
  fold_left (fun acc x => if P x then Some x else acc) l None.

(** Holdings ordered by [current_value], largest first. *)
Fixpoint sorted_desc (l : list HoldingSummary) : Prop :=
  match l with
  | x :: ((y :: _) as r) => hs_current_value y <= hs_current_value x /\ sorted_desc r
  | _ => True
  end.

(** ** Sample inputs *)

(** Stand-ins for [Math.sqrt] and [Math.pow] at concrete evaluations. *)
Definition sample_sqrt (x : Q) : Q := x.
Definition sample_pow (_ _ : Q) : Q := 0.

Definition sample_point (d : DateStr) (v : Q) : PortfolioPoint := mkPortfolioPoint d v 0 0.
Arguments sample_point d%_Z v%_Q.

(** The daily series 100, 110, 99. *)
Definition sample_series3 : list PortfolioPoint :=
  [sample_point 0 100; sample_point 1 110; sample_point 2 99].

(** A benchmark sampled on the first and last day of [sample_series3] only. *)
Definition sample_bench_gap : list PricePoint := [mkPricePoint 0 5; mkPricePoint 2 6].

Definition sample_holding : HoldingSummary :=
  mkHoldingSummary "X" "" 0 0 None None None.

(** One position of 1 share of X from day 0; X's prices start on day 5. *)
Definition sample_payload : PerformanceResponse :=
  mkPerformanceResponse "" "" ["X"%string] [] [] ∅
    {[ "X"%string := [mkPricePoint 5 10] ]}
    [mkPositionState 0 {[ "X"%string := 1 ]} 0]
    [sample_holding] [].

Definition sample_payload_no_positions : PerformanceResponse :=
  mkPerformanceResponse "" "" ["X"%string] [] [] ∅
    {[ "X"%string := [mkPricePoint 0 10] ]} [] [sample_holding] [].

Definition sample_benchmarks : Obj (list PricePoint) :=
  [("SPY"%string, [mkPricePoint 0 5; mkPricePoint 2 6])].

Definition sample_overlays : Obj (list PricePoint) :=
  [("AAPL"%string, [mkPricePoint 1 7])].

(** * Properties *)

Section Properties.

Variable sqrt : Q -> Q.
Variable pow : Q -> Q -> Q.

(** ** Helper lemmas *)

Lemma fold_left_add_map (f : Q -> Q) (l : list Q) (a : Q) :
  fold_left (fun s v => s + f v) l a = fold_left (fun s v => s + v) (map f l) a.
Proof. revert a; induction l as [|x l IH]; intros a; simpl; [reflexivity | apply IH]. Qed.

Lemma returns_loop_spec (p0 : PortfolioPoint) (rest : list PortfolioPoint) :
  returns_loop (pt_value p0) rest = spec_daily_returns (p0 :: rest).
Proof.
  revert p0; induction rest as [|c rest IH]; intros p0; [reflexivity|].
  cbn [returns_loop]. rewrite IH. unfold spec_daily_returns, consecutive_pairs.
  cbn [tl combine List.filter]. destruct (Qltb 0 (pt_value p0)); reflexivity.
Qed.

Lemma series_returns_spec (s : list PortfolioPoint) :
  series_returns s = spec_daily_returns s.
Proof. destruct s as [|p0 rest]; [reflexivity | apply returns_loop_spec]. Qed.

Lemma stdDev_spec (xs : list Q) :
  xs <> [] -> stdDev sqrt xs = spec_pop_stddev sqrt xs.
Proof.
  intros Hne. destruct xs as [|x xs]; [congruence|].
  unfold stdDev, spec_pop_stddev, sumQ. rewrite fold_left_add_map. reflexivity.
Qed.

Lemma span_days_calendar (first last : PortfolioPoint) :
  span_days first last == inject_Z (spec_calendar_days first last).
Proof.
  unfold span_days, spec_calendar_days, parseDate, Qdiv, Qeq. simpl. lia.
Qed.

Lemma relative_loop_length (bm : gmap DateStr Q) (prev : PortfolioPoint)
    (rest : list PortfolioPoint) (pr br : list Q) :
  length pr = length br ->
  length (relative_loop bm prev rest pr br).1 = length (relative_loop bm prev rest pr br).2.
Proof.
  revert prev pr br; induction rest as [|c rest IH]; intros prev pr br Hlen; [exact Hlen|].
  cbn [relative_loop].
  destruct (bm !! pt_date c), (bm !! pt_date prev);
    try destruct (Qle_bool (pt_value prev) 0 || Qle_bool _ 0); apply IH; auto.
  rewrite !length_app; simpl; lia.
Qed.

Lemma Qltb_true (x y : Q) : Qltb x y = true <-> x < y.
Proof.
  unfold Qltb. rewrite negb_true_iff. split; intros H.
  - apply Qnot_le_lt. intros Hle. apply Qle_bool_iff in Hle. congruence.
  - destruct (Qle_bool y x) eqn:E; [|reflexivity].
    apply Qle_bool_iff in E. exfalso. apply (Qlt_not_le x y); assumption.
Qed.

Lemma Qltb_false (x y : Q) : Qltb x y = false <-> y <= x.
Proof.
  unfold Qltb. rewrite negb_false_iff. apply Qle_bool_iff.
Qed.

Lemma last_cons_default {A} (r : list A) (v d : A) :
  List.last (v :: r) d = List.last r v.
Proof.
  revert v d; induction r as [|a r IH]; intros v d; [reflexivity|].
  change (List.last (a :: r) d = List.last (a :: r) v). rewrite !IH. reflexivity.
Qed.

Lemma drawdown_nondecreasing (l : list Q) (mp : Q) :
  nondecreasing l -> (match l with [] => True | x :: _ => mp <= x end) ->
  drawdown_loop mp 0 l = 0.
Proof.
  revert mp; induction l as [|v r IH]; intros mp Hnd Hhd; [reflexivity|].
  cbn [drawdown_loop].
  set (mp' := if Qltb mp v then v else mp).
  assert (Hmp : mp' == v).
  { subst mp'. destruct (Qltb mp v) eqn:E; [reflexivity|].
    apply Qltb_false in E. apply Qle_antisym; assumption. }
  assert (Hdd : Qltb ((v - mp') / mp') 0 = false).
  { apply Qltb_false. rewrite Hmp. unfold Qdiv.
    assert (E0 : v - v == 0) by ring. rewrite E0, Qmult_0_l. apply Qle_refl. }
  rewrite Hdd. apply IH.
  - destruct r; [exact I | apply Hnd].
  - destruct r as [|y r]; [exact I|]. destruct Hnd as [Hvy _]. rewrite Hmp. exact Hvy.
Qed.

Lemma nonincreasing_le_head (l : list Q) (x : Q) :
  nonincreasing (x :: l) -> Forall (fun y => y <= x) l.
Proof.
  revert x; induction l as [|y r IH]; intros x H; [constructor|].
  destruct H as [Hyx Hr]. constructor; [exact Hyx|].
  apply (Forall_impl _ _ _ (IH y Hr)). intros z Hz. apply (Qle_trans _ y); assumption.
Qed.

Lemma drawdown_nonincreasing (l : list Q) (m mdd x0 : Q) :
  0 < m -> Forall (fun y => y <= m) l -> nonincreasing (x0 :: l) ->
  mdd == (x0 - m) / m ->
  drawdown_loop m mdd l == (List.last l x0 - m) / m.
Proof.
  revert mdd x0; induction l as [|v r IH]; intros mdd x0 Hm Hle Hni Hmdd; [exact Hmdd|].
  inversion Hle as [|? ? Hvm Hr]; subst.
  destruct Hni as [Hvx Hni].
  cbn [drawdown_loop]. rewrite (proj2 (Qltb_false m v) Hvm).
  rewrite last_cons_default.
  destruct (Qltb ((v - m) / m) mdd) eqn:E.
  - apply IH; auto. reflexivity.
  - apply Qltb_false in E. apply IH; auto.
    apply Qle_antisym; [exact E|]. rewrite Hmdd. unfold Qdiv.
    apply Qmult_le_compat_r; [lra|]. apply Qinv_le_0_compat. lra.
Qed.

Lemma list_min_nonincreasing (l : list Q) (a b : Q) :
  a == b -> nonincreasing (b :: l) ->
  fold_left (fun a y => if Qle_bool a y then a else y) l a == List.last l b.
Proof.
  revert a b; induction l as [|y r IH]; intros a b Hab Hni; [exact Hab|].
  destruct Hni as [Hyb Hni]. cbn [fold_left]. rewrite last_cons_default.
  apply IH; [|exact Hni].
  destruct (Qle_bool a y) eqn:E; [|reflexivity].
  apply Qle_bool_iff in E. apply Qle_antisym; [exact E|]. rewrite Hab. exact Hyb.
Qed.

Lemma list_max_nonincreasing (l : list Q) (a b : Q) :
  a == b -> Forall (fun y => y <= b) l ->
  fold_left (fun a y => if Qle_bool a y then y else a) l a == b.
Proof.
  revert a; induction l as [|y r IH]; intros a Hab Hle; [exact Hab|].
  inversion Hle as [|? ? Hyb Hr]; subst. cbn [fold_left].
  apply IH; [|exact Hr].
  destruct (Qle_bool a y) eqn:E; [|exact Hab].
  apply Qle_bool_iff in E. apply Qle_antisym; [exact Hyb|]. rewrite <- Hab. exact E.
Qed.

Lemma computeMetrics_maxDrawdown_eq (p0 p1 : PortfolioPoint) (s : list PortfolioPoint) :
  maxDrawdown (computeMetrics sqrt pow (p0 :: p1 :: s)) =
  computeMaxDrawdown (map pt_value (p0 :: p1 :: s)).
Proof. reflexivity. Qed.

Lemma Forall_last_default {A} (P : A -> Prop) (l : list A) (d : A) :
  Forall P l -> P d -> P (List.last l d).
Proof.
  revert d; induction l as [|x l IH]; intros d Hl Hd; [exact Hd|].
  inversion Hl; subst. rewrite last_cons_default. apply IH; assumption.
Qed.

Lemma drawdown_single (v : Q) : drawdown_loop v 0 [v] = 0.
Proof. apply drawdown_nondecreasing; [exact I | apply Qle_refl]. Qed.

Lemma benchMap_fold_lookup (benchmark : list PricePoint) (m : gmap DateStr Q) (d : DateStr) :
  fold_left (fun m b => <[pp_date b := pp_value b]> m) benchmark m !! d =
  fold_left (fun acc b => if Z.eqb (pp_date b) d then Some (pp_value b) else acc)
            benchmark (m !! d).
Proof.
  revert m; induction benchmark as [|b bs IH]; intros m; [reflexivity|].
  cbn [fold_left]. rewrite IH, lookup_insert.
  destruct (Z.eqb (pp_date b) d) eqn:E.
  - apply Z.eqb_eq in E. rewrite decide_True by exact E. reflexivity.
  - apply Z.eqb_neq in E. rewrite decide_False by exact E. reflexivity.
Qed.

Lemma benchMap_of_lookup (benchmark : list PricePoint) (d : DateStr) :
  benchMap_of benchmark !! d = spec_bench_value_at benchmark d.
Proof. unfold benchMap_of. rewrite benchMap_fold_lookup, lookup_empty. reflexivity. Qed.

Lemma relative_loop_spec (benchmark : list PricePoint) (prev : PortfolioPoint)
    (rest : list PortfolioPoint) (pr br : list Q) :
  relative_loop (benchMap_of benchmark) prev rest pr br =
  (pr ++ map fst (spec_aligned_pairs (prev :: rest) benchmark),
   br ++ map snd (spec_aligned_pairs (prev :: rest) benchmark)).
Proof.
  revert prev pr br; induction rest as [|c rest IH]; intros prev pr br.
  - simpl. rewrite !app_nil_r. reflexivity.
  - cbn [relative_loop]. rewrite !benchMap_of_lookup.
    unfold spec_aligned_pairs. cbn [consecutive_pairs tl combine flat_map].
    fold (consecutive_pairs (c :: rest)).
    fold (spec_aligned_pairs (c :: rest) benchmark).
    destruct (spec_bench_value_at benchmark (pt_date c)) as [bv|];
      destruct (spec_bench_value_at benchmark (pt_date prev)) as [bp|];
      try (rewrite IH; reflexivity).
    unfold Qltb. destruct (Qle_bool (pt_value prev) 0), (Qle_bool bp 0); simpl;
      rewrite IH; try reflexivity.
    rewrite <- !app_assoc. reflexivity.
Qed.

Lemma aligned_returns_spec (portfolio : list PortfolioPoint) (benchmark : list PricePoint) :
  aligned_returns portfolio benchmark =
  (map fst (spec_aligned_pairs portfolio benchmark),
   map snd (spec_aligned_pairs portfolio benchmark)).
Proof.
  destruct portfolio as [|p0 rest]; [reflexivity|].
  unfold aligned_returns. rewrite relative_loop_spec. reflexivity.
Qed.

Lemma insert_by_value_In (x y : HoldingSummary) (l : list HoldingSummary) :
  In y (insert_by_value x l) <-> y = x \/ In y l.
Proof.
  induction l as [|z l IH]; simpl; [intuition congruence|].
  destruct (Qle_bool (hs_current_value x) (hs_current_value z)); simpl;
    [rewrite IH|]; intuition congruence.
Qed.

Lemma sort_fold_In (y : HoldingSummary) (l acc : list HoldingSummary) :
  In y (fold_left (fun acc x => insert_by_value x acc) l acc) <-> In y l \/ In y acc.
Proof.
  revert acc; induction l as [|x l IH]; intros acc; simpl; [tauto|].
  rewrite IH, insert_by_value_In. intuition congruence.
Qed.

Lemma sort_by_value_In (y : HoldingSummary) (l : list HoldingSummary) :
  In y (sort_by_value l) <-> In y l.
Proof. unfold sort_by_value. rewrite sort_fold_In. simpl. tauto. Qed.

Lemma obj_get_set_eq {V} (k : string) (v : V) (o : Obj V) :
  obj_get k (obj_set k v o) = Some v.
Proof.
  induction o as [|[k' v'] o IH]; simpl; [rewrite String.eqb_refl; reflexivity|].
  destruct (String.eqb_spec k k') as [->|Hne]; simpl.
  - rewrite String.eqb_refl. reflexivity.
  - rewrite (proj2 (String.eqb_neq k k') Hne). exact IH.
Qed.

Lemma obj_get_set_ne {V} (k k' : string) (v : V) (o : Obj V) :
  k <> k' -> obj_get k (obj_set k' v o) = obj_get k o.
Proof.
  intros Hne. induction o as [|[k'' v''] o IH]; simpl.
  - rewrite (proj2 (String.eqb_neq k k') Hne). reflexivity.
  - destruct (String.eqb_spec k' k'') as [->|Hne']; simpl.
    + rewrite (proj2 (String.eqb_neq k k'') Hne). reflexivity.
    + destruct (String.eqb k k''); [reflexivity | exact IH].
Qed.

Lemma obj_set_fresh {V} (k : string) (v : V) (o : Obj V) :
  ~ In k (map fst o) -> obj_set k v o = o ++ [(k, v)].
Proof.
  induction o as [|[k' v'] o IH]; intros Hk; [reflexivity|].
  simpl in Hk. simpl.
  rewrite (proj2 (String.eqb_neq k k')) by (intros ->; tauto).
  rewrite IH by tauto. reflexivity.
Qed.

Lemma fold_obj_set_map {V W} (f : V -> W) (l : list (string * V)) (acc : Obj W) :
  List.NoDup (map fst acc ++ map fst l) ->
  fold_left (fun o '(k, s) => obj_set k (f s) o) l acc =
  acc ++ map (fun '(k, s) => (k, f s)) l.
Proof.
  revert acc; induction l as [|[k s] l IH]; intros acc Hnd; simpl; [rewrite app_nil_r; reflexivity|].
  rewrite obj_set_fresh.
  - rewrite IH; [rewrite <- app_assoc; reflexivity|].
    rewrite map_app, <- app_assoc. exact Hnd.
  - simpl in Hnd. apply NoDup_remove_2 in Hnd. rewrite in_app_iff in Hnd. tauto.
Qed.

Lemma fold_obj_set_id {V} (l : list (string * V)) :
  List.NoDup (map fst l) ->
  fold_left (fun o '(k, s) => obj_set k s o) l [] = l.
Proof.
  intros Hnd. rewrite (fold_obj_set_map (fun s => s) l []) by exact Hnd.
  simpl. induction l as [|[k s] l IH]; [reflexivity|]. simpl. f_equal.
  apply IH. inversion Hnd; assumption.
Qed.

Lemma obj_get_map {V W} (f : V -> W) (k : string) (l : list (string * V)) :
  obj_get k (map (fun '(k, s) => (k, f s)) l) = option_map f (obj_get k l).
Proof.
  induction l as [|[k' s] l IH]; [reflexivity|]. simpl.
  destruct (String.eqb k k'); [reflexivity | exact IH].
Qed.

Lemma obj_get_In {V} (k : string) (v : V) (o : Obj V) :
  obj_get k o = Some v -> In k (map fst o).
Proof.
  induction o as [|[k' v'] o IH]; simpl; [discriminate|].
  destruct (String.eqb_spec k k') as [->|_]; auto.
Qed.

Lemma NoDup_app_disjoint {A} (l1 l2 : list A) (a : A) :
  List.NoDup (l1 ++ l2) -> In a l1 -> ~ In a l2.
Proof.
  intros Hnd Hin. apply in_split in Hin as (x & y & ->).
  rewrite <- app_assoc in Hnd. simpl in Hnd. apply NoDup_remove_2 in Hnd.
  rewrite !in_app_iff in Hnd. tauto.
Qed.

Lemma add_series_field_other (vm : ViewMode) (lk : Obj (list PricePoint)) (st : Obj Q)
    (d : DateStr) (key fld t : string) (row : Obj Cell) :
  fld <> t ->
  obj_get t (add_series_field vm lk st d key fld row) = obj_get t row.
Proof.
  intros Hne. unfold add_series_field.
  destruct (lookupValue (obj_get key lk) d); [apply obj_get_set_ne; congruence | reflexivity].
Qed.

Lemma fold_fields_other (vm : ViewMode) (lk : Obj (list PricePoint)) (st : Obj Q)
    (d : DateStr) (fld : string -> string) (keys : list string) (t : string)
    (row : Obj Cell) :
  (forall key, In key keys -> fld key <> t) ->
  obj_get t (fold_left (fun row key => add_series_field vm lk st d key (fld key) row)
                       keys row) = obj_get t row.
Proof.
  revert row; induction keys as [|key keys IH]; intros row Hne; [reflexivity|].
  simpl. rewrite IH by (intros; apply Hne; simpl; auto).
  apply add_series_field_other. apply Hne. left; reflexivity.
Qed.

Lemma add_series_fields_other (vm : ViewMode) (lk : Obj (list PricePoint)) (st : Obj Q)
    (d : DateStr) (fld : string -> string) (t : string) (row : Obj Cell) :
  (forall key, In key (map fst lk) -> fld key <> t) ->
  obj_get t (add_series_fields vm lk st d fld row) = obj_get t row.
Proof. apply fold_fields_other. Qed.

(** The field a series contributes to a row, from its carried-forward value. *)
Lemma add_series_fields_target (vm : ViewMode) (lk : Obj (list PricePoint)) (st : Obj Q)
    (d : DateStr) (fld : string -> string) (k : string) (row : Obj Cell) :
  List.NoDup (map fld (map fst lk)) -> In k (map fst lk) ->
  obj_get (fld k) (add_series_fields vm lk st d fld row) =
  match lookupValue (obj_get k lk) d with
  | Some v => Some (CNum (rebase vm v (match obj_get k st with
                                       | Some s => or_one s | None => 1 end)))
  | None => obj_get (fld k) row
  end.
Proof.
  unfold add_series_fields. generalize (map fst lk) as keys.
  intros keys; revert row; induction keys as [|key keys IH]; intros row Hnd Hin; [destruct Hin|].
  simpl in Hnd. inversion Hnd as [|? ? Hnotin Hnd']; subst. simpl.
  destruct Hin as [->|Hin].
  - rewrite fold_fields_other.
    + unfold add_series_field.
      destruct (lookupValue (obj_get k lk) d); [apply obj_get_set_eq | reflexivity].
    + intros key' Hk' He. apply Hnotin. rewrite <- He. apply in_map. exact Hk'.
  - rewrite IH by assumption.
    destruct (lookupValue (obj_get k lk) d); [reflexivity|].
    apply add_series_field_other. intros He. apply Hnotin. rewrite He. apply in_map. exact Hin.
Qed.

Lemma lookupValue_first (pt : PricePoint) (rest : list PricePoint) (d : DateStr) :
  (pp_date pt <= d)%Z ->
  (forall q rest', rest = q :: rest' -> (d < pp_date q)%Z) ->
  lookupValue (Some (pt :: rest)) d = Some (pp_value pt).
Proof.
  intros Hle Hnext. simpl. rewrite (proj2 (Z.leb_le _ _) Hle).
  destruct rest as [|q rest']; [reflexivity|]. simpl.
  rewrite (proj2 (Z.leb_gt _ _) (Hnext q rest' eq_refl)). reflexivity.
Qed.

Lemma lookupValue_after (pt : PricePoint) (rest : list PricePoint) (d : DateStr) :
  (d < pp_date pt)%Z -> lookupValue (Some (pt :: rest)) d = None.
Proof. intros Hlt. simpl. rewrite (proj2 (Z.leb_gt _ _) Hlt). reflexivity. Qed.

Lemma rebase_indexed_self (v : Q) :
  ~ v == 0 -> rebase VMindexed v (or_one v) == 0.
Proof.
  intros Hv. unfold or_one. destruct (Qeq_bool v 0) eqn:E.
  - apply Qeq_bool_iff in E. contradiction.
  - simpl. field. exact Hv.
Qed.

(** ** Claims *)

(** C4: for the daily series [(d,100), (d+1,110), (d+2,99)], computeMetrics
    gives totalReturn = -0.01, totalAbs = -1, maxDrawdown = 0.10 (the drop
    from the peak 110 to 99) and annualized = null (the window spans 2 days,
    fewer than 30).  Exact rational arithmetic. *)
Theorem computeMetrics_scenario_100_110_99 (d : Z) (e1 c1 e2 c2 e3 c3 : Q) :
  let m := computeMetrics sqrt pow
             [mkPortfolioPoint d 100 e1 c1; mkPortfolioPoint (d + 1)%Z 110 e2 c2;
              mkPortfolioPoint (d + 2)%Z 99 e3 c3] in
  totalReturn m = Some (-0.01) /\ totalAbs m = Some (-1) /\
  (exists dd, maxDrawdown m = Some dd /\ dd == 0.1) /\ annualized m = None.
Proof.
  intros m. subst m. unfold computeMetrics, span_days, parseDate, last_point.
  cbn [List.last pt_date].
  replace ((d + 2) * 86400000 - d * 86400000)%Z with 172800000%Z by lia.
  vm_compute. split; [reflexivity|]. split; [reflexivity|].
  split; [|reflexivity]. eexists; split; [reflexivity|]. reflexivity.
Qed.

(** C5: computeMetrics on a series of fewer than two points returns a
    record whose eight fields are all null. *)
Theorem computeMetrics_short_all_null (s : list PortfolioPoint) :
  (length s < 2)%nat ->
  totalReturn (computeMetrics sqrt pow s) = None /\
  totalAbs (computeMetrics sqrt pow s) = None /\
  annualized (computeMetrics sqrt pow s) = None /\
  volatility (computeMetrics sqrt pow s) = None /\
  maxDrawdown (computeMetrics sqrt pow s) = None /\
  sharpe (computeMetrics sqrt pow s) = None /\
  beta (computeMetrics sqrt pow s) = None /\
  correlation (computeMetrics sqrt pow s) = None.
Proof.
  intros H. destruct s as [|p [|q s]]; simpl in H; try lia; repeat split.
Qed.

(** C6: for a series of at least two points, volatility is the population
    standard deviation (divided by N) of the daily returns, formed only for
    consecutive pairs with a positive previous value, times sqrt 252; it is
    null when there is no such pair. *)
Theorem computeMetrics_volatility (s : list PortfolioPoint) :
  (2 <= length s)%nat ->
  volatility (computeMetrics sqrt pow s) =
  match spec_daily_returns s with
  | [] => None
  | rs => Some (spec_pop_stddev sqrt rs * sqrt 252)
  end.
Proof.
  intros H. destruct s as [|p0 [|p1 s]]; simpl in H; try lia.
  unfold computeMetrics. cbn [volatility]. rewrite series_returns_spec.
  destruct (spec_daily_returns (p0 :: p1 :: s)) as [|r rs] eqn:E; [reflexivity|].
  rewrite stdDev_spec by discriminate. reflexivity.
Qed.

(** C7: for a series of at least two points, annualized is
    [(1 + totalReturn)^(365/days) - 1] exactly when totalReturn is non-null
    and the calendar-day span [days] between the first and last sample
    dates is at least 30, and null otherwise; [days] equals that span. *)
Theorem computeMetrics_annualized (first : PortfolioPoint) (rest : list PortfolioPoint) :
  rest <> [] ->
  let m := computeMetrics sqrt pow (first :: rest) in
  let last := List.last rest first in
  span_days first last == inject_Z (spec_calendar_days first last) /\
  annualized m =
    match totalReturn m with
    | Some tr =>
      if Z.leb 30 (spec_calendar_days first last)
      then Some (pow (1 + tr) (365 / span_days first last) - 1)
      else None
    | None => None
    end.
Proof.
  intros Hne m last. subst m last. split; [apply span_days_calendar|].
  destruct rest as [|p1 rest]; [congruence|].
  unfold computeMetrics. cbn [annualized totalReturn].
  fold (last_point first (p1 :: rest)).
  destruct (Qltb 0 (pt_value first)); [|reflexivity].
  assert (Hb : Qle_bool 30 (span_days first (last_point first (p1 :: rest)))
               = Z.leb 30 (spec_calendar_days first (last_point first (p1 :: rest)))).
  { rewrite (span_days_calendar first). apply eq_iff_eq_true.
    rewrite Qle_bool_iff, Z.leb_le, (Zle_Qle 30). reflexivity. }
  rewrite Hb. reflexivity.
Qed.

(** C9: the two aligned return arrays built by computeRelativeMetrics always
    have the same length, so its guard returns [{beta: null, correlation:
    null}] exactly when they are empty. *)
Theorem aligned_returns_same_length (portfolio : list PortfolioPoint)
    (benchmark : list PricePoint) :
  length (aligned_returns portfolio benchmark).1 =
    length (aligned_returns portfolio benchmark).2 /\
  (relative_guard (aligned_returns portfolio benchmark) = true <->
   (aligned_returns portfolio benchmark).1 = []).
Proof.
  assert (Hlen : length (aligned_returns portfolio benchmark).1 =
                 length (aligned_returns portfolio benchmark).2).
  { destruct portfolio as [|p0 rest]; [reflexivity|]. apply relative_loop_length. reflexivity. }
  split; [exact Hlen|]. unfold relative_guard.
  destruct (aligned_returns portfolio benchmark) as [pr br]. cbn [fst snd] in *.
  destruct pr as [|x pr]; [tauto|]. rewrite Hlen, Nat.eqb_refl. simpl. split; discriminate.
Qed.

(** C10: with an empty positions array, computeHoldingPerformance returns an
    empty list whatever the holdings, price series and window. *)
Theorem computeHoldingPerformance_no_positions (payload : PerformanceResponse)
    (start end_ : Date) :
  pr_positions payload = [] -> computeHoldingPerformance payload start end_ = [].
Proof. intros H. unfold computeHoldingPerformance. rewrite H. reflexivity. Qed.

(** C3 (as amended): the maxDrawdown field of computeMetrics is null exactly
    for series of fewer than two points (all-null record); otherwise it is
    non-null, and it is always >= 0 when present; it equals 0 for a
    non-decreasing series; it equals [1 - min/max] for a series that only
    decreases (weakly) from a positive first value.  computeMaxDrawdown
    itself is non-null on every non-empty list and 0 on a single point. *)
Theorem computeMetrics_maxDrawdown_props (s : list PortfolioPoint) :
  (maxDrawdown (computeMetrics sqrt pow s) = None <-> (length s < 2)%nat) /\
  (forall dd, maxDrawdown (computeMetrics sqrt pow s) = Some dd -> 0 <= dd) /\
  ((2 <= length s)%nat -> nondecreasing (map pt_value s) ->
     maxDrawdown (computeMetrics sqrt pow s) = Some 0) /\
  ((2 <= length s)%nat -> nonincreasing (map pt_value s) ->
     0 < List.hd 0 (map pt_value s) ->
     exists dd, maxDrawdown (computeMetrics sqrt pow s) = Some dd /\
       dd == 1 - list_min (map pt_value s) / list_max (map pt_value s)) /\
  (forall vs : list Q, vs <> [] -> computeMaxDrawdown vs <> None) /\
  (forall v : Q, computeMaxDrawdown [v] = Some 0).
Proof.
  split; [|split; [|split; [|split; [|split]]]].
  - destruct s as [|p0 [|p1 s]]; simpl; [split; auto; lia | split; auto; lia|].
    split; [discriminate | lia].
  - intros dd H. destruct s as [|p0 [|p1 s]]; [discriminate | discriminate|].
    rewrite computeMetrics_maxDrawdown_eq in H. simpl in H. injection H as <-.
    apply Qabs_nonneg.
  - intros Hlen Hnd. destruct s as [|p0 [|p1 s]]; simpl in Hlen; try lia.
    rewrite computeMetrics_maxDrawdown_eq.
    change (map pt_value (p0 :: p1 :: s)) with (pt_value p0 :: map pt_value (p1 :: s)) in *.
    cbn [computeMaxDrawdown].
    rewrite (drawdown_nondecreasing _ (pt_value p0) Hnd (Qle_refl _)). reflexivity.
  - intros Hlen Hni Hpos. destruct s as [|p0 [|p1 s]]; simpl in Hlen; try lia.
    rewrite computeMetrics_maxDrawdown_eq.
    set (m := pt_value p0) in *. set (ws := map pt_value (p1 :: s)).
    change (map pt_value (p0 :: p1 :: s)) with (m :: ws) in *.
    simpl in Hpos.
    assert (Hle : Forall (fun y => y <= m) ws) by (apply nonincreasing_le_head; exact Hni).
    cbn [computeMaxDrawdown drawdown_loop].
    rewrite (proj2 (Qltb_false m m) (Qle_refl m)).
    assert (Hdd : Qltb ((m - m) / m) 0 = false).
    { apply Qltb_false. assert (E0 : m - m == 0) by ring. unfold Qdiv.
      rewrite E0, Qmult_0_l. apply Qle_refl. }
    rewrite Hdd.
    assert (Hx : drawdown_loop m 0 ws == (List.last ws m - m) / m).
    { apply drawdown_nonincreasing; auto. unfold Qdiv. ring. }
    set (L := List.last ws m) in *.
    assert (HL : L <= m) by (apply Forall_last_default; [exact Hle | apply Qle_refl]).
    eexists; split; [reflexivity|].
    assert (Hmin : list_min (m :: ws) == L) by (apply list_min_nonincreasing; [reflexivity | exact Hni]).
    assert (Hmax : list_max (m :: ws) == m) by (apply list_max_nonincreasing; [reflexivity | exact Hle]).
    rewrite Hmin, Hmax, Hx.
    assert (Hy : 0 <= (m - L) / m).
    { apply Qmult_le_0_compat; [lra | apply Qinv_le_0_compat; lra]. }
    assert (Hneg : (L - m) / m == - ((m - L) / m)) by (unfold Qdiv; ring).
    rewrite Hneg, Qabs_opp, (Qabs_pos _ Hy).
    field. intros H0. rewrite H0 in Hpos. apply (Qlt_irrefl 0). exact Hpos.
  - intros vs Hne. destruct vs as [|v vs]; [congruence | discriminate].
  - intros v. cbn [computeMaxDrawdown]. rewrite drawdown_single. reflexivity.
Qed.

(** C2 (as amended): computeRelativeMetrics forms one pair of returns per
    consecutive pair of portfolio dates at both of which the benchmark has a
    value (and both previous values are positive); when no pair is formed,
    beta and correlation are null.  With portfolio dates [d1 < d2 < d3] and
    benchmark dates [d1, d3], neither consecutive pair has both endpoints in
    the benchmark, so no pair contributes and beta and correlation are null. *)
Theorem computeRelativeMetrics_alignment :
  (forall (portfolio : list PortfolioPoint) (benchmark : list PricePoint),
     aligned_returns portfolio benchmark =
     (map fst (spec_aligned_pairs portfolio benchmark),
      map snd (spec_aligned_pairs portfolio benchmark))) /\
  (forall (portfolio : list PortfolioPoint) (benchmark : list PricePoint),
     spec_aligned_pairs portfolio benchmark = [] ->
     computeRelativeMetrics sqrt portfolio benchmark = (None, None)) /\
  (forall (q1 q2 q3 : PortfolioPoint) (w1 w3 : Q),
     (pt_date q1 < pt_date q2 < pt_date q3)%Z ->
     let benchmark := [mkPricePoint (pt_date q1) w1; mkPricePoint (pt_date q3) w3] in
     aligned_returns [q1; q2; q3] benchmark = ([], []) /\
     computeRelativeMetrics sqrt [q1; q2; q3] benchmark = (None, None)).
Proof.
  assert (Hnone : forall (portfolio : list PortfolioPoint) (benchmark : list PricePoint),
             spec_aligned_pairs portfolio benchmark = [] ->
             computeRelativeMetrics sqrt portfolio benchmark = (None, None)).
  { intros portfolio benchmark H. unfold computeRelativeMetrics.
    rewrite aligned_returns_spec, H. reflexivity. }
  split; [exact aligned_returns_spec|]. split; [exact Hnone|].
  intros q1 q2 q3 w1 w3 Hd benchmark.
  assert (Hp : spec_aligned_pairs [q1; q2; q3] benchmark = []).
  { unfold spec_aligned_pairs, spec_bench_value_at, benchmark. simpl.
    rewrite (proj2 (Z.eqb_neq (pt_date q1) (pt_date q2))) by lia.
    rewrite (proj2 (Z.eqb_neq (pt_date q3) (pt_date q2))) by lia.
    destruct (Z.eqb (pt_date q1) (pt_date q3)), (Z.eqb (pt_date q3) (pt_date q3));
      reflexivity. }
  split; [rewrite aligned_returns_spec, Hp; reflexivity | apply Hnone; exact Hp].
Qed.

(** C1 (as amended): when a holding's price series has no observation dated
    at or before the window start, the start price is 0 (the end price is
    not substituted for it): startValue = 0, so the holding's row shows
    gain_abs = current_value = endShares * endPrice and gain_pct = null. *)
Theorem computeHoldingPerformance_missing_start_price (payload : PerformanceResponse)
    (start end_ : Date) (p0 : PositionState) (ps : list PositionState)
    (h : HoldingSummary) :
  pr_positions payload = p0 :: ps ->
  In h (pr_holdings payload) ->
  priceAt (pr_price_series payload !! hs_symbol h) start = None ->
  exists r, In r (computeHoldingPerformance payload start end_) /\
    hs_symbol r = hs_symbol h /\
    hs_current_value r =
      hs_shares r * nullish (priceAt (pr_price_series payload !! hs_symbol h) end_) 0 /\
    (exists g, hs_gain_abs r = Some g /\ g == hs_current_value r) /\
    hs_gain_pct r = None.
Proof.
  intros Hpos Hin Hstart.
  exists (holding_row payload (List.last ps p0) start end_ h).
  split.
  { unfold computeHoldingPerformance. rewrite Hpos, sort_by_value_In.
    apply in_map. exact Hin. }
  unfold holding_row. rewrite Hstart. cbn [nullish hs_symbol hs_shares hs_current_value
    hs_gain_abs hs_gain_pct].
  split; [reflexivity|]. split; [reflexivity|]. split.
  - eexists; split; [reflexivity|]. ring.
  - rewrite (proj2 (Qltb_false _ _)); [reflexivity|]. rewrite Qmult_0_r. apply Qle_refl.
Qed.

End Properties.

(** * Properties of the rest of the performance page *)

Section PageProperties.

Lemma filter_filter_and {T} (f g : T -> bool) (l : list T) :
  List.filter g (List.filter f l) = List.filter (fun x => f x && g x) l.
Proof.
  induction l as [|x l IH]; simpl; [reflexivity|].
  destruct (f x); simpl; [destruct (g x)|]; rewrite ?IH; reflexivity.
Qed.

(** X1: an inverted window ([end < start]) selects nothing. *)
Theorem filterSeries_inverted {T} (date_of : T -> DateStr) (series : list T)
    (start end_ : Date) :
  (end_ < start)%Z -> filterSeries date_of series start end_ = [].
Proof.
  intros Hlt. unfold filterSeries. induction series as [|p series IH]; [reflexivity|].
  simpl. destruct (Z.leb start (parseDate (date_of p))) eqn:E1; [|exact IH].
  destruct (Z.leb (parseDate (date_of p)) end_) eqn:E2; [|exact IH].
  apply Z.leb_le in E1, E2. lia.
Qed.

(** X2: windowing twice is windowing once by the intersection of the two
    windows (so filterSeries is idempotent). *)
Theorem filterSeries_compose {T} (date_of : T -> DateStr) (series : list T)
    (a b a' b' : Date) :
  filterSeries date_of (filterSeries date_of series a b) a' b' =
  filterSeries date_of series (Z.max a a') (Z.min b b').
Proof.
  unfold filterSeries. rewrite filter_filter_and. apply filter_ext. intros p.
  apply eq_iff_eq_true. rewrite !andb_true_iff, !Z.leb_le. lia.
Qed.

(** X3: toggling a symbol that is not selected, and toggling it again,
    gives back the same selection. *)
Theorem toggle_toggle_absent (x : string) (l : list string) :
  ~ In x l -> toggle x (toggle x l) = l.
Proof.
  intros Hx. unfold toggle.
  assert (Hf : existsb (String.eqb x) l = false).
  { apply not_true_iff_false. intros H. apply existsb_exists in H as (y & Hy & E).
    apply String.eqb_eq in E. subst. contradiction. }
  rewrite Hf, existsb_app. simpl. rewrite String.eqb_refl, orb_true_r.
  rewrite List.filter_app. simpl. rewrite String.eqb_refl. simpl. rewrite app_nil_r.
  induction l as [|y l IH]; [reflexivity|]. simpl.
  assert (Hyx : y <> x) by (intros ->; apply Hx; left; reflexivity).
  rewrite (proj2 (String.eqb_neq y x) Hyx). simpl. f_equal.
  - apply IH; [intros H; apply Hx; right; exact H|]. simpl in Hf.
    apply orb_false_iff in Hf. apply Hf.
Qed.

(** X4: on a selection free of duplicates, toggling an absent symbol
    appends it at the end, toggling a present symbol removes it and keeps
    the others in their order, and the result is again free of duplicates
    with exactly the membership of the toggled symbol flipped. *)
Theorem toggle_membership (x : string) (l : list string) :
  List.NoDup l ->
  (~ In x l -> toggle x l = l ++ [x]) /\
  (In x l -> exists a b, l = a ++ x :: b /\ toggle x l = a ++ b) /\
  List.NoDup (toggle x l) /\
  (forall y, In y (toggle x l) <-> (In y l /\ y <> x) \/ (y = x /\ ~ In x l)).
Proof.
  intros Hnd.
  assert (Hex : existsb (String.eqb x) l = true <-> In x l).
  { rewrite existsb_exists. split.
    - intros (z & Hz & Ez). apply String.eqb_eq in Ez. subst z. exact Hz.
    - intros H. exists x. split; [exact H | apply String.eqb_refl]. }
  assert (Hfilt : forall l', ~ In x l' ->
            List.filter (fun s => negb (String.eqb s x)) l' = l').
  { induction l' as [|y l' IH]; intros Hn; [reflexivity|]. simpl.
    assert (Hyx : y <> x) by (intros ->; apply Hn; left; reflexivity).
    rewrite (proj2 (String.eqb_neq y x) Hyx). simpl. f_equal.
    apply IH. intros H; apply Hn; right; exact H. }
  split; [|split].
  { intros Hn. unfold toggle.
    assert (E : existsb (String.eqb x) l = false)
      by (apply not_true_iff_false; intros H; apply Hn, Hex, H).
    rewrite E. reflexivity. }
  { intros Hin. apply in_split in Hin as (a & b & ->). exists a, b. split; [reflexivity|].
    unfold toggle.
    assert (E : existsb (String.eqb x) (a ++ x :: b) = true)
      by (apply Hex, in_or_app; right; left; reflexivity).
    rewrite E.
    pose proof (NoDup_remove_2 _ _ _ Hnd) as Hxab.
    rewrite List.filter_app. simpl. rewrite String.eqb_refl. simpl.
    rewrite !Hfilt; [reflexivity| |]; intros H; apply Hxab, in_or_app; auto. }
  unfold toggle.
  destruct (existsb (String.eqb x) l) eqn:E.
  - apply existsb_exists in E as (z & Hz & Ez). apply String.eqb_eq in Ez. subst z.
    split.
    + apply List.NoDup_filter. exact Hnd.
    + intros y. rewrite filter_In, negb_true_iff, String.eqb_neq. tauto.
  - assert (Hx : ~ In x l).
    { intros H. assert (existsb (String.eqb x) l = true) by
        (apply existsb_exists; exists x; split; [exact H | apply String.eqb_refl]).
      congruence. }
    split.
    + apply List.NoDup_app; [exact Hnd | constructor; [intros []|constructor] |].
      intros a Ha [<-|[]]. contradiction.
    + intros y. rewrite in_app_iff. simpl. split.
      * intros [H|[<-|[]]]; [left; split; [exact H|] | right; auto].
        intros ->. contradiction.
      * intros [[H _]|[-> _]]; auto.
Qed.

(** X5: the window chosen by the range buttons never starts before the
    payload's first date; and if stepping back by calendar days never moves
    forward and the payload's dates are in order, it never starts after its
    end. *)
Theorem rangeBounds_within (setDateBack : Date -> Z -> Date)
    (start_date end_date : DateStr) (r : RangeKey) :
  (parseDate start_date <= fst (rangeBounds_of setDateBack start_date end_date r))%Z /\
  ((forall d n, (0 < n)%Z -> (setDateBack d n <= d)%Z) ->
   (start_date <= end_date)%Z ->
   (fst (rangeBounds_of setDateBack start_date end_date r) <=
    snd (rangeBounds_of setDateBack start_date end_date r))%Z).
Proof.
  unfold rangeBounds_of, subtractRange, parseDate. cbn [fst snd].
  split.
  - destruct r; cbn [range_delta Z.ltb Z.compare]; try lia;
      match goal with |- context [if Z.ltb ?a ?b then _ else _] =>
        destruct (Z.ltb_spec a b); lia end.
  - intros Hback Hd.
    destruct r; cbn [range_delta Z.ltb Z.compare]; try lia;
      match goal with |- context [if Z.ltb ?a ?b then _ else _] =>
        destruct (Z.ltb_spec a b); [lia|] end;
      match goal with |- (setDateBack ?d ?n <= _)%Z =>
        specialize (Hback d n ltac:(lia)); lia end.
Qed.

Lemma ascending_tail {T} (date_of : T -> DateStr) (x : T) (r : list T) :
  ascending date_of (x :: r) -> ascending date_of r.
Proof. destruct r; simpl; tauto. Qed.

Lemma ascending_after {T} (date_of : T -> DateStr) (x : T) (r : list T) :
  ascending date_of (x :: r) -> Forall (fun y => (date_of x < date_of y)%Z) r.
Proof.
  revert x; induction r as [|y r IH]; intros x H; [constructor|].
  destruct H as [Hxy Hy]. constructor; [exact Hxy|].
  eapply List.Forall_impl; [|exact (IH y Hy)]. intros z Hz. cbv beta in *. lia.
Qed.

Lemma fold_last_such_keep {T} (P : T -> bool) (l : list T) (acc : option T) :
  Forall (fun y => P y = false) l ->
  fold_left (fun acc x => if P x then Some x else acc) l acc = acc.
Proof.
  revert acc; induction l as [|x l IH]; intros acc H; [reflexivity|].
  inversion H as [|? ? Hx Hl]; subst. simpl. rewrite Hx. apply IH, Hl.
Qed.

(** The [for ... break] loop of [lookupValue] and [priceAt] on a series in
    date order picks the last point at or before the target. *)
Lemma lookup_loop_locf (date_of : DateStr -> Z)
    (Hmono : forall a b, (a < b)%Z -> (date_of a <= date_of b)%Z)
    (s : list PricePoint) (t : Z) (acc : option PricePoint) :
  ascending pp_date s ->
  lookup_loop (option_map pp_value acc) s t date_of =
  option_map pp_value
    (fold_left (fun acc x => if Z.leb (date_of (pp_date x)) t then Some x else acc) s acc).
Proof.
  revert acc; induction s as [|x s IH]; intros acc Hasc; [reflexivity|].
  simpl. destruct (Z.leb (date_of (pp_date x)) t) eqn:E.
  - apply (IH (Some x)). exact (ascending_tail _ _ _ Hasc).
  - rewrite fold_last_such_keep; [reflexivity|].
    eapply List.Forall_impl; [|exact (ascending_after _ _ _ Hasc)].
    intros y Hy. cbv beta in Hy. apply Z.leb_gt in E. apply Z.leb_gt.
    specialize (Hmono _ _ Hy). lia.
Qed.

Lemma parseDate_mono (a b : DateStr) : (a < b)%Z -> (parseDate a <= parseDate b)%Z.
Proof. unfold parseDate. lia. Qed.

Lemma lookup_loop_some (v : Q) (s : list PricePoint) (t : Z) (date_of : DateStr -> Z) :
  lookup_loop (Some v) s t date_of <> None.
Proof.
  revert v; induction s as [|x s IH]; intros v; simpl; [discriminate|].
  destruct (Z.leb (date_of (pp_date x)) t); [apply IH | discriminate].
Qed.

Lemma findPositionAt_loop_locf (positions : list PositionState) (t : Date)
    (acc : option PositionState) :
  ascending ps_date positions ->
  findPositionAt_loop acc positions t =
  fold_left (fun acc x => if Z.leb (parseDate (ps_date x)) t then Some x else acc)
            positions acc.
Proof.
  revert acc; induction positions as [|x ps IH]; intros acc Hasc; [reflexivity|].
  simpl. destruct (Z.leb (parseDate (ps_date x)) t) eqn:E.
  - apply IH. exact (ascending_tail _ _ _ Hasc).
  - rewrite fold_last_such_keep; [reflexivity|].
    eapply List.Forall_impl; [|exact (ascending_after _ _ _ Hasc)].
    intros y Hy. cbv beta in Hy. apply Z.leb_gt in E. apply Z.leb_gt.
    pose proof (parseDate_mono _ _ Hy). lia.
Qed.

Lemma sorted_desc_tail (x : HoldingSummary) (l : list HoldingSummary) :
  sorted_desc (x :: l) -> sorted_desc l.
Proof. destruct l; simpl; tauto. Qed.

Lemma insert_by_value_head (x : HoldingSummary) (l : list HoldingSummary) :
  exists h t, insert_by_value x l = h :: t /\ (h = x \/ hd_error l = Some h).
Proof.
  destruct l as [|y l]; simpl; [eauto|].
  destruct (Qle_bool (hs_current_value x) (hs_current_value y)); eauto.
Qed.

Lemma insert_by_value_sorted (x : HoldingSummary) (l : list HoldingSummary) :
  sorted_desc l -> sorted_desc (insert_by_value x l).
Proof.
  induction l as [|y l IH]; intros Hs; [exact I|]. simpl.
  destruct (Qle_bool (hs_current_value x) (hs_current_value y)) eqn:E.
  - destruct (insert_by_value_head x l) as (h & t & Eq & Hh).
    specialize (IH (sorted_desc_tail _ _ Hs)). rewrite Eq in IH |- *.
    split; [|exact IH].
    destruct Hh as [->|Hh]; [apply Qle_bool_iff; exact E|].
    destruct l as [|z l]; [discriminate|]. simpl in Hh. injection Hh as ->.
    apply Hs.
  - split; [|exact Hs]. apply Qlt_le_weak, Qnot_le_lt.
    intros Hle. apply Qle_bool_iff in Hle. congruence.
Qed.

Lemma insert_by_value_perm (x : HoldingSummary) (l : list HoldingSummary) :
  Permutation (insert_by_value x l) (x :: l).
Proof.
  induction l as [|y l IH]; simpl; [reflexivity|].
  destruct (Qle_bool (hs_current_value x) (hs_current_value y)); [|reflexivity].
  etransitivity; [apply perm_skip, IH | apply perm_swap].
Qed.

Lemma sort_fold_sorted_perm (l acc : list HoldingSummary) :
  sorted_desc acc ->
  sorted_desc (fold_left (fun acc x => insert_by_value x acc) l acc) /\
  Permutation (fold_left (fun acc x => insert_by_value x acc) l acc) (l ++ acc).
Proof.
  revert acc; induction l as [|x l IH]; intros acc Hs; simpl; [split; [exact Hs | reflexivity]|].
  destruct (IH (insert_by_value x acc) (insert_by_value_sorted x acc Hs)) as [H1 H2].
  split; [exact H1|]. etransitivity; [exact H2|].
  etransitivity; [apply Permutation_app_head, insert_by_value_perm|].
  symmetry. apply Permutation_middle.
Qed.

(** X6: on a series in date order, [priceAt] is the value of the last point
    on or before the target (last observation carried forward). *)
Theorem priceAt_last_observation (s : list PricePoint) (target : Date) :
  ascending pp_date s ->
  priceAt (Some s) target =
  option_map pp_value (last_such (fun p => Z.leb (parseDate (pp_date p)) target) s).
Proof.
  intros Hasc. unfold priceAt, last_such. destruct s as [|x s]; [reflexivity|].
  exact (lookup_loop_locf parseDate parseDate_mono (x :: s) target None Hasc).
Qed.

(** X7: [priceAt] is null exactly when the series is missing or empty or its
    first point is after the target, whatever the order of the series. *)
Theorem priceAt_null (series : option (list PricePoint)) (target : Date) :
  priceAt series target = None <->
  match series with
  | None | Some [] => True
  | Some (p :: _) => (target < parseDate (pp_date p))%Z
  end.
Proof.
  destruct series as [[|p s]|]; simpl; try tauto.
  destruct (Z.leb (parseDate (pp_date p)) target) eqn:E.
  - apply Z.leb_le in E. split; [intros H; exfalso; exact (lookup_loop_some _ _ _ _ H) | lia].
  - apply Z.leb_gt in E. tauto.
Qed.

(** X8: on snapshots in date order, [findPositionAt] returns the last
    snapshot on or before the target, and null when there is none. *)
Theorem findPositionAt_last_snapshot (positions : list PositionState) (target : Date) :
  ascending ps_date positions ->
  findPositionAt positions target =
  last_such (fun p => Z.leb (parseDate (ps_date p)) target) positions.
Proof. intros Hasc. exact (findPositionAt_loop_locf positions target None Hasc). Qed.

(** X9: the holdings table comes out ordered by current value, largest
    first, and holds exactly one row per holding of the payload (when there
    are snapshots). *)
Theorem computeHoldingPerformance_sorted (payload : PerformanceResponse)
    (p0 : PositionState) (ps : list PositionState) (start end_ : Date) :
  pr_positions payload = p0 :: ps ->
  sorted_desc (computeHoldingPerformance payload start end_) /\
  Permutation (computeHoldingPerformance payload start end_)
    (map (holding_row payload (List.last ps p0) start end_) (pr_holdings payload)).
Proof.
  intros Hp. unfold computeHoldingPerformance, sort_by_value. rewrite Hp.
  destruct (sort_fold_sorted_perm
              (map (holding_row payload (List.last ps p0) start end_) (pr_holdings payload))
              [] I) as [H1 H2].
  rewrite app_nil_r in H2. split; [exact H1|]. exact H2.
Qed.

(** X10: a row whose symbol has no shares in the snapshot at the start (or
    no snapshot at or before the start) has a null gain percentage and a
    gain equal to its current value. *)
Theorem computeHoldingPerformance_no_start_shares (payload : PerformanceResponse)
    (start end_ : Date) (r : HoldingSummary) :
  In r (computeHoldingPerformance payload start end_) ->
  match findPositionAt (pr_positions payload) start with
  | None => True
  | Some st => ps_shares st !! hs_symbol r = None
  end ->
  hs_gain_pct r = None /\
  exists g, hs_gain_abs r = Some g /\ g == hs_current_value r.
Proof.
  unfold computeHoldingPerformance. destruct (pr_positions payload) as [|p0 ps] eqn:Hp;
    [intros []|].
  rewrite sort_by_value_In. intros Hin Hst. apply in_map_iff in Hin as (h & <- & _).
  unfold holding_row in *. cbn [hs_gain_pct hs_gain_abs hs_current_value hs_symbol] in *.
  rewrite Hp in *.
  assert (Hz : match findPositionAt (p0 :: ps) start with
               | Some st => nullish (ps_shares st !! hs_symbol h) 0
               | None => 0 end = 0).
  { destruct (findPositionAt (p0 :: ps) start); [rewrite Hst|]; reflexivity. }
  rewrite Hz.
  set (sp := nullish (priceAt (pr_price_series payload !! hs_symbol h) start) 0).
  set (ev := nullish (ps_shares _ !! hs_symbol h) 0 * _).
  assert (E0 : 0 * sp == 0) by ring.
  split.
  - unfold Qltb. replace (Qle_bool (0 * sp) 0) with true; [reflexivity|].
    symmetry. apply Qle_bool_iff. rewrite E0. apply Qle_refl.
  - exists (ev - 0 * sp). split; [reflexivity|]. rewrite E0. ring.
Qed.

End PageProperties.

Section StatsProperties.

Variable sqrt : Q -> Q.
Variable pow : Q -> Q -> Q.

Lemma sum_squares_nonneg (m : Q) (l : list Q) (a : Q) :
  0 <= a -> 0 <= fold_left (fun s v => s + (v - m) * (v - m)) l a.
Proof.
  revert a; induction l as [|v l IH]; intros a Ha; simpl; [exact Ha|].
  apply IH. assert (0 <= (v - m) * (v - m)).
  { destruct (Qlt_le_dec (v - m) 0) as [Hn|Hn].
    - assert (E : (v - m) * (v - m) == (m - v) * (m - v)) by ring. rewrite E.
      apply Qmult_le_0_compat; lra.
    - apply Qmult_le_0_compat; exact Hn. }
  lra.
Qed.

Lemma lenQ_pos {A} (x : A) (l : list A) : 0 < lenQ (x :: l).
Proof.
  unfold lenQ, Qlt. simpl. lia.
Qed.

(** X11: [stdDev] of an empty list is 0, and otherwise [Math.sqrt] is only
    ever applied to a non-negative variance. *)
Theorem stdDev_radicand_nonneg (values : list Q) :
  (values = [] -> stdDev sqrt values = 0) /\
  (values <> [] -> exists variance, 0 <= variance /\ stdDev sqrt values = sqrt variance).
Proof.
  split; [intros ->; reflexivity|]. intros Hne.
  destruct values as [|x xs]; [congruence|].
  eexists. split; [|reflexivity].
  apply Qle_shift_div_l; [apply lenQ_pos|]. rewrite Qmult_0_l.
  apply sum_squares_nonneg, Qle_refl.
Qed.

Lemma fold_diag (m : Q) (l : list Q) (c : Q) :
  exists c', fold_left (fun '(c, vb) '(x, y) =>
                          (c + (x - m) * (y - m), vb + (y - m) * (y - m)))
                       (combine l l) (c, c) = (c', c').
Proof.
  revert c; induction l as [|x l IH]; intros c; simpl; [eauto|].
  apply IH.
Qed.

(** X12: the beta of a return series against itself is 1 whenever it is
    defined. *)
Theorem betaCalc_self (a : list Q) :
  match betaCalc a a with Some x => x == 1 | None => True end.
Proof.
  unfold betaCalc. destruct (negb (Nat.eqb (length a) (length a)) || Nat.eqb (length a) 0);
    [exact I|].
  destruct (fold_diag (sumQ a / lenQ a) a 0) as (c' & E).
  cbv zeta. rewrite E.
  destruct (Qeq_bool c' 0) eqn:Ec; [exact I|].
  assert (Hc : ~ c' == 0) by (intros H; apply Qeq_bool_iff in H; congruence).
  unfold Qdiv. apply Qmult_inv_r, Hc.
Qed.

Lemma fold_snd_const {A C} (f : A * Q -> C -> A * Q) (P : C -> Prop) (l : list C)
    (acc : A * Q) :
  (forall acc x, P x -> snd (f acc x) == snd acc) -> Forall P l ->
  snd (fold_left f l acc) == snd acc.
Proof.
  intros Hf Hl. revert acc; induction Hl as [|x l Hx Hl IH]; intros acc; simpl;
    [reflexivity|].
  rewrite IH. apply Hf, Hx.
Qed.

Lemma Forall_combine_snd {A B} (P : B -> Prop) (a : list A) (b : list B) :
  Forall P b -> Forall (fun xy => P (snd xy)) (combine a b).
Proof.
  revert b; induction a as [|x a IH]; intros b Hb; [constructor|].
  destruct b as [|y b]; [constructor|]. inversion Hb; subst. simpl.
  constructor; [assumption | apply IH; assumption].
Qed.

Lemma sum_const (k : Q) (l : list Q) (a : Q) :
  Forall (fun y => y == k) l -> fold_left (fun s v => s + v) l a == a + lenQ l * k.
Proof.
  intros Hl. revert a; induction Hl as [|y l Hy Hl IH]; intros a; cbn [fold_left].
  - unfold lenQ. simpl. ring.
  - assert (Hy' : y == k) by exact Hy. unfold lenQ in *. cbn [length]. rewrite IH, Hy'.
    rewrite Nat2Z.inj_succ, <- Z.add_1_r, inject_Z_plus. ring.
Qed.

Lemma mean_const (k : Q) (y : Q) (l : list Q) :
  Forall (fun y => y == k) (y :: l) -> sumQ (y :: l) / lenQ (y :: l) == k.
Proof.
  intros Hl. unfold sumQ. rewrite sum_const by exact Hl.
  pose proof (lenQ_pos y l) as Hp. field. intros H. rewrite H in Hp. discriminate.
Qed.

Lemma bench_value_const (k : Q) (bench : list PricePoint) (d : DateStr) (acc : option Q) (v : Q) :
  Forall (fun b => pp_value b == k) bench ->
  fold_left (fun acc b => if Z.eqb (pp_date b) d then Some (pp_value b) else acc) bench acc
    = Some v ->
  v == k \/ acc = Some v.
Proof.
  intros Hb. revert acc; induction Hb as [|b bs Hb Hbs IH]; intros acc H; simpl in H;
    [right; exact H|].
  destruct (IH _ H) as [Hk|Hacc]; [left; exact Hk|].
  destruct (Z.eqb (pp_date b) d); [left; injection Hacc as <-; exact Hb | right; exact Hacc].
Qed.

Lemma flat_relative_const (k : Q) (bench : list PricePoint) (portfolio : list PortfolioPoint) :
  Forall (fun b => pp_value b == k) bench ->
  Forall (fun y => y == 0) (map snd (spec_aligned_pairs portfolio bench)).
Proof.
  intros Hb. apply List.Forall_forall. intros y Hy.
  apply in_map_iff in Hy as ([x y'] & <- & Hin). unfold spec_aligned_pairs in Hin.
  apply in_flat_map in Hin as ([prev cur] & _ & Hin).
  destruct (spec_bench_value_at bench (pt_date cur)) as [bv|] eqn:Ebv; [|destruct Hin].
  destruct (spec_bench_value_at bench (pt_date prev)) as [bp|] eqn:Ebp; [|destruct Hin].
  destruct (Qltb 0 (pt_value prev) && Qltb 0 bp) eqn:Eg; [|destruct Hin].
  destruct Hin as [Heq|[]]. injection Heq as _ <-. simpl.
  apply andb_true_iff in Eg as [_ Eg]. apply Qltb_true in Eg.
  destruct (bench_value_const k bench _ None bv Hb Ebv) as [Hv|]; [|discriminate].
  destruct (bench_value_const k bench _ None bp Hb Ebp) as [Hp|]; [|discriminate].
  assert (Hnz : ~ bp == 0) by (intros H; rewrite H in Eg; discriminate).
  rewrite Hv. rewrite Hp in Hnz |- *. field. exact Hnz.
Qed.

(** X13: against a benchmark whose price never moves, beta and correlation
    are both null (with [Math.sqrt 0 = 0]). *)
Theorem computeRelativeMetrics_flat_benchmark
    (Hsqrt0 : forall x, x == 0 -> sqrt x == 0)
    (portfolio : list PortfolioPoint) (benchmark : list PricePoint) (k : Q) :
  Forall (fun b => pp_value b == k) benchmark ->
  computeRelativeMetrics sqrt portfolio benchmark = (None, None).
Proof.
  intros Hb. unfold computeRelativeMetrics. rewrite aligned_returns_spec.
  pose proof (flat_relative_const k benchmark portfolio Hb) as Hba. revert Hba.
  generalize (map snd (spec_aligned_pairs portfolio benchmark)) as ba.
  generalize (map fst (spec_aligned_pairs portfolio benchmark)) as pa.
  intros pa ba Hba. destruct pa as [|x pa']; [reflexivity|].
  cbn [relative_guard fst snd].
  destruct (Nat.eqb (length (x :: pa')) (length ba)) eqn:Eg; [|reflexivity].
  cbn [negb]. apply Nat.eqb_eq in Eg.
  destruct ba as [|y ba']; [discriminate|].
  assert (Hlen : (negb (Nat.eqb (length (x :: pa')) (length (y :: ba')))
                  || Nat.eqb (length (x :: pa')) 0) = false).
  { rewrite Eg, Nat.eqb_refl. reflexivity. }
  assert (Hm : sumQ (y :: ba') / lenQ (y :: ba') == 0) by (apply mean_const, Hba).
  f_equal.
  - unfold betaCalc. rewrite Hlen. cbv zeta.
    match goal with |- context [fold_left ?f ?l ?acc] =>
      pose proof (fold_snd_const f (fun xy => snd xy == 0) l acc) as Hs;
      destruct (fold_left f l acc) as [cov varB] end.
    assert (Hv : varB == 0).
    { simpl in Hs. rewrite Hs; [reflexivity| |].
      - intros [c vb] [x' y'] Hy'. simpl in Hy' |- *. rewrite Hy', Hm. ring.
      - exact (Forall_combine_snd (fun y => y == 0) (x :: pa') (y :: ba') Hba). }
    apply Qeq_bool_iff in Hv. rewrite Hv. reflexivity.
  - unfold correlation_calc. rewrite Hlen. cbv zeta.
    match goal with |- context [fold_left ?f ?l ?acc] =>
      pose proof (fold_snd_const f (fun xy => snd xy == 0) l acc) as Hs;
      destruct (fold_left f l acc) as [[num da] db] end.
    assert (Hv : db == 0).
    { simpl in Hs. rewrite Hs; [reflexivity| |].
      - intros [[n1 a1] b1] [x' y'] Hy'. simpl in Hy' |- *. rewrite Hy', Hm. ring.
      - exact (Forall_combine_snd (fun y => y == 0) (x :: pa') (y :: ba') Hba). }
    assert (Hd : sqrt (da * db) == 0) by (apply Hsqrt0; rewrite Hv; ring).
    apply Qeq_bool_iff in Hd. rewrite Hd. reflexivity.
Qed.

Lemma drawdown_loop_bounds (maxPeak maxDD : Q) (values : list Q) :
  0 < maxPeak -> -1 <= maxDD <= 0 -> Forall (fun v => 0 <= v) values ->
  -1 <= drawdown_loop maxPeak maxDD values <= 0.
Proof.
  intros Hp Hd Hv. revert maxPeak maxDD Hp Hd.
  induction Hv as [|v vs Hv Hvs IH]; intros maxPeak maxDD Hp Hd; [exact Hd|].
  simpl. set (p' := if Qltb maxPeak v then v else maxPeak).
  assert (Hp' : 0 < p' /\ v <= p').
  { unfold p'. destruct (Qltb maxPeak v) eqn:E.
    - apply Qltb_true in E. split; [lra | apply Qle_refl].
    - apply Qltb_false in E. split; lra. }
  destruct Hp' as [Hp' Hvp].
  assert (Hdd : -1 <= (v - p') / p' <= 0).
  { split.
    - apply Qle_shift_div_l; [exact Hp'|]. lra.
    - apply Qle_shift_div_r; [exact Hp'|]. lra. }
  apply IH; [exact Hp'|].
  destruct (Qltb ((v - p') / p') maxDD); lra.
Qed.

(** X14: for values that are never negative, starting from a positive value,
    the maximum drawdown lies between 0 and 1 (a loss of at most 100%). *)
Theorem computeMaxDrawdown_at_most_one (v0 : Q) (values : list Q) :
  0 < v0 -> Forall (fun v => 0 <= v) values ->
  exists dd, computeMaxDrawdown (v0 :: values) = Some dd /\ 0 <= dd <= 1.
Proof.
  intros H0 Hv. eexists. split; [reflexivity|].
  assert (Hb : -1 <= drawdown_loop v0 0 (v0 :: values) <= 0).
  { apply drawdown_loop_bounds; [exact H0 | lra | constructor; [lra | exact Hv]]. }
  rewrite Qabs_neg by lra. lra.
Qed.

End StatsProperties.

Section ChartProperties.

Variable sqrt : Q -> Q.
Variable pow : Q -> Q -> Q.

Lemma filteredBenchmarks_fold (benchmark_series : gmap string (list PricePoint))
    (sel : list string) (startDate endDate : Date) (out : Obj (list PricePoint)) (b : string) :
  obj_get b (fold_left (fun out b =>
      match benchmark_series !! b with
      | Some series => obj_set b (filterSeries pp_date series startDate endDate) out
      | None => out
      end) sel out) =
  if existsb (String.eqb b) sel
  then match benchmark_series !! b with
       | Some series => Some (filterSeries pp_date series startDate endDate)
       | None => obj_get b out
       end
  else obj_get b out.
Proof.
  revert out; induction sel as [|x sel IH]; intros out; [reflexivity|].
  cbn [fold_left existsb]. rewrite IH.
  destruct (String.eqb_spec b x) as [->|Hne]; cbn [orb].
  - destruct (benchmark_series !! x) as [series|]; [|destruct (existsb _ sel); reflexivity].
    rewrite obj_get_set_eq. destruct (existsb _ sel); reflexivity.
  - destruct (benchmark_series !! x) as [series|]; [|reflexivity].
    rewrite obj_get_set_ne by exact Hne. reflexivity.
Qed.

(** X15: the filtered benchmarks hold, for each key, the series of the
    payload windowed to the range exactly when the key is selected and the
    payload has a series for it, and nothing otherwise. *)
Theorem filteredBenchmarks_lookup (benchmark_series : gmap string (list PricePoint))
    (selectedBenchmarks : list string) (startDate endDate : Date) (b : string) :
  obj_get b (filteredBenchmarks_of benchmark_series selectedBenchmarks startDate endDate) =
  if existsb (String.eqb b) selectedBenchmarks
  then option_map (fun series => filterSeries pp_date series startDate endDate)
                  (benchmark_series !! b)
  else None.
Proof.
  unfold filteredBenchmarks_of. rewrite filteredBenchmarks_fold.
  destruct (existsb _ _); [destruct (benchmark_series !! b)|]; reflexivity.
Qed.

(** X16: with a named first selected benchmark that the payload has, the
    dashboard's beta and correlation are those of the windowed portfolio
    against that benchmark's series windowed to the same range (both null
    for an empty window). *)
Theorem dashboard_beta_first_benchmark (filteredPortfolio : list PortfolioPoint)
    (benchmark_series : gmap string (list PricePoint)) (k : string) (ks : list string)
    (series : list PricePoint) (startDate endDate : Date) :
  k <> ""%string -> benchmark_series !! k = Some series ->
  let m := dashboard_metrics sqrt pow filteredPortfolio (k :: ks)
             (filteredBenchmarks_of benchmark_series (k :: ks) startDate endDate) in
  (beta m, correlation m) =
  computeRelativeMetrics sqrt filteredPortfolio
    (filterSeries pp_date series startDate endDate).
Proof.
  intros Hk Hs m. unfold m. clear m.
  destruct filteredPortfolio as [|p ps]; [reflexivity|].
  unfold dashboard_metrics.
  rewrite (proj2 (String.eqb_neq k "") Hk).
  unfold filteredBenchmarks_of. rewrite filteredBenchmarks_fold.
  cbn [existsb]. rewrite String.eqb_refl, Hs. cbn [orb].
  destruct (computeRelativeMetrics sqrt (p :: ps) _). reflexivity.
Qed.

Lemma Forall2_map_self {A B} (P : A -> B -> Prop) (f : A -> B) (l : list A) :
  (forall x, In x l -> P x (f x)) -> Forall2 P l (map f l).
Proof.
  induction l as [|x l IH]; intros H; simpl; constructor.
  - apply H. left. reflexivity.
  - apply IH. intros y Hy. apply H. right. exact Hy.
Qed.

Lemma buildChartData_as_map (p0 : PortfolioPoint) (ps : list PortfolioPoint)
    (benchmarks overlays : Obj (list PricePoint)) (vm : ViewMode) :
  List.NoDup (map fst benchmarks) -> List.NoDup (map fst overlays) ->
  buildChartData (p0 :: ps) benchmarks overlays vm =
  map (chart_row vm (or_one (pt_value p0)) benchmarks
         (map (fun '(k, s) => (k, first_value_or_one s)) benchmarks) overlays
         (map (fun '(k, s) => (k, first_value_or_one s)) overlays)) (p0 :: ps).
Proof.
  intros HB HO. unfold buildChartData. cbv beta iota zeta.
  rewrite (fold_obj_set_id benchmarks HB), (fold_obj_set_id overlays HO).
  rewrite (fold_obj_set_map first_value_or_one benchmarks []) by exact HB.
  rewrite (fold_obj_set_map first_value_or_one overlays []) by exact HO.
  reflexivity.
Qed.

(** The fields of one chart row, when the field names are distinct. *)
Lemma chart_row_fields (vm : ViewMode) (base : Q) (b : Obj (list PricePoint)) (bs : Obj Q)
    (o : Obj (list PricePoint)) (os : Obj Q) (p : PortfolioPoint) :
  List.NoDup ("date" :: "Portfolio" ::
              map fst b ++ map (fun k => "Overlay-" ++ k) (map fst o))%string ->
  let row := chart_row vm base b bs o os p in
  obj_get "date" row = Some (CStr (pt_date p)) /\
  obj_get "Portfolio" row = Some (CNum (rebase vm (pt_value p) base)) /\
  (forall k, In k (map fst b) ->
     obj_get k row =
     match lookupValue (obj_get k b) (pt_date p) with
     | Some v => Some (CNum (rebase vm v (match obj_get k bs with
                                          | Some s => or_one s | None => 1 end)))
     | None => None
     end) /\
  (forall k, In k (map fst o) ->
     obj_get ("Overlay-" ++ k)%string row =
     match lookupValue (obj_get k o) (pt_date p) with
     | Some v => Some (CNum (rebase vm v (match obj_get k os with
                                          | Some s => or_one s | None => 1 end)))
     | None => None
     end).
Proof.
  intros Hnd row.
  set (fo := fun k : string => ("Overlay-" ++ k)%string).
  set (B := map fst b). set (O := map fo (map fst o)).
  inversion Hnd as [|? ? Hdate Hnd1]; subst.
  inversion Hnd1 as [|? ? Hport HBO]; subst.
  assert (HB : List.NoDup B) by exact (NoDup_app_remove_r _ _ HBO).
  assert (HO : List.NoDup O) by exact (NoDup_app_remove_l _ _ HBO).
  set (d := pt_date p).
  set (row1 := obj_set "Portfolio" (CNum (rebase vm (pt_value p) base))
                 [("date"%string, CStr d)]).
  set (row2 := add_series_fields vm b bs d (fun key => key) row1).
  assert (Hrow : row = add_series_fields vm o os d fo row2) by reflexivity.
  assert (HinB : forall k, In k B -> ~ In k O /\ k <> "date"%string /\ k <> "Portfolio"%string).
  { intros k Hk. split; [exact (NoDup_app_disjoint _ _ _ HBO Hk)|].
    split; intros ->; [apply Hdate | apply Hport]; simpl; rewrite in_app_iff; auto. }
  assert (HinO : forall k, In k O -> ~ In k B /\ k <> "date"%string /\ k <> "Portfolio"%string).
  { intros k Hk. split.
    - intros HkB. exact (NoDup_app_disjoint _ _ _ HBO HkB Hk).
    - split; intros ->; [apply Hdate | apply Hport]; simpl; rewrite in_app_iff; auto. }
  assert (Hrow1 : forall t, t <> "date"%string -> t <> "Portfolio"%string ->
                  obj_get t row1 = None).
  { intros t Ht1 Ht2. unfold row1. rewrite obj_get_set_ne by exact Ht2. simpl.
    rewrite (proj2 (String.eqb_neq t "date") Ht1). reflexivity. }
  assert (Hov_other : forall t, ~ In t O -> obj_get t row = obj_get t row2).
  { intros t Ht. rewrite Hrow. apply add_series_fields_other. intros key Hkey He. apply Ht.
    rewrite <- He. apply in_map. exact Hkey. }
  assert (Hb_other : forall t, ~ In t B -> obj_get t row2 = obj_get t row1).
  { intros t Ht. apply add_series_fields_other. intros key Hkey He. apply Ht.
    rewrite <- He. exact Hkey. }
  assert (HdO : ~ In "date"%string O) by (intros H; apply Hdate; simpl; rewrite in_app_iff; auto).
  assert (HdB : ~ In "date"%string B) by (intros H; apply Hdate; simpl; rewrite in_app_iff; auto).
  assert (HpO : ~ In "Portfolio"%string O)
    by (intros H; apply Hport; simpl; rewrite in_app_iff; auto).
  assert (HpB : ~ In "Portfolio"%string B)
    by (intros H; apply Hport; simpl; rewrite in_app_iff; auto).
  split; [|split; [|split]].
  - rewrite Hov_other, Hb_other by assumption. unfold row1.
    rewrite obj_get_set_ne by discriminate. reflexivity.
  - rewrite Hov_other, Hb_other by assumption. apply obj_get_set_eq.
  - intros k HkB. rewrite Hov_other by (apply HinB; exact HkB).
    unfold row2.
    pose proof (add_series_fields_target vm b bs d (fun key => key) k row1) as T.
    cbn beta in T. rewrite T; [| rewrite map_id; exact HB | exact HkB].
    destruct (lookupValue (obj_get k b) d); [reflexivity|].
    destruct (HinB k HkB) as (_ & H1 & H2). apply Hrow1; assumption.
  - intros k Hk'. assert (HfoO : In (fo k) O) by (apply in_map; exact Hk').
    change ("Overlay-" ++ k)%string with (fo k). rewrite Hrow.
    rewrite add_series_fields_target by assumption.
    destruct (lookupValue (obj_get k o) d); [reflexivity|].
    destruct (HinO (fo k) HfoO) as (HnB & H1 & H2).
    rewrite Hb_other by exact HnB. apply Hrow1; assumption.
Qed.

Lemma field_names_split (b o : Obj (list PricePoint)) :
  List.NoDup ("date" :: "Portfolio" ::
              map fst b ++ map (fun k => "Overlay-" ++ k) (map fst o))%string ->
  List.NoDup (map fst b) /\ List.NoDup (map fst o).
Proof.
  intros Hnd. inversion Hnd as [|? ? _ Hnd1]; subst. inversion Hnd1 as [|? ? _ HBO]; subst.
  split; [exact (NoDup_app_remove_r _ _ HBO)|].
  exact (NoDup_map_inv _ _ (NoDup_app_remove_l _ _ HBO)).
Qed.

(** X17: the chart has one row per portfolio point, in order; each row's
    [date] is the point's date, and in value mode its [Portfolio] field is
    the point's value (field names assumed distinct). *)
Theorem buildChartData_rows (portfolio : list PortfolioPoint)
    (benchmarks overlays : Obj (list PricePoint)) (vm : ViewMode) :
  List.NoDup ("date" :: "Portfolio" ::
              map fst benchmarks ++ map (fun k => "Overlay-" ++ k) (map fst overlays))%string ->
  Forall2 (fun p row =>
             obj_get "date" row = Some (CStr (pt_date p)) /\
             (vm = VMvalue -> obj_get "Portfolio" row = Some (CNum (pt_value p))))
          portfolio (buildChartData portfolio benchmarks overlays vm).
Proof.
  intros Hnd. destruct portfolio as [|p0 ps]; [constructor|].
  destruct (field_names_split _ _ Hnd) as [HB HO].
  rewrite buildChartData_as_map by assumption.
  apply Forall2_map_self. intros p _.
  destruct (chart_row_fields vm (or_one (pt_value p0)) benchmarks
              (map (fun '(k, s) => (k, first_value_or_one s)) benchmarks) overlays
              (map (fun '(k, s) => (k, first_value_or_one s)) overlays) p Hnd)
    as (Hd & Hp & _ & _).
  split; [exact Hd|]. intros ->. exact Hp.
Qed.

(** X18: in value mode, every benchmark and overlay column of a row is the
    series' value at its last point on or before the row's date (for a
    series in date order), and the field is absent before the series'
    first point (field names assumed distinct). *)
Theorem buildChartData_value_columns (portfolio : list PortfolioPoint)
    (benchmarks overlays : Obj (list PricePoint)) :
  List.NoDup ("date" :: "Portfolio" ::
              map fst benchmarks ++ map (fun k => "Overlay-" ++ k) (map fst overlays))%string ->
  Forall2 (fun p row =>
     (forall k series, obj_get k benchmarks = Some series -> ascending pp_date series ->
        obj_get k row =
        option_map (fun q => CNum (pp_value q))
          (last_such (fun q => Z.leb (pp_date q) (pt_date p)) series)) /\
     (forall k series, obj_get k overlays = Some series -> ascending pp_date series ->
        obj_get ("Overlay-" ++ k)%string row =
        option_map (fun q => CNum (pp_value q))
          (last_such (fun q => Z.leb (pp_date q) (pt_date p)) series)))
    portfolio (buildChartData portfolio benchmarks overlays VMvalue).
Proof.
  intros Hnd. destruct portfolio as [|p0 ps]; [constructor|].
  destruct (field_names_split _ _ Hnd) as [HB HO].
  rewrite buildChartData_as_map by assumption.
  apply Forall2_map_self. intros p _.
  destruct (chart_row_fields VMvalue (or_one (pt_value p0)) benchmarks
              (map (fun '(k, s) => (k, first_value_or_one s)) benchmarks) overlays
              (map (fun '(k, s) => (k, first_value_or_one s)) overlays) p Hnd)
    as (_ & _ & Hb & Ho).
  assert (Hlv : forall series, ascending pp_date series ->
            lookupValue (Some series) (pt_date p) =
            option_map pp_value (last_such (fun q => Z.leb (pp_date q) (pt_date p)) series)).
  { intros series Hasc. unfold lookupValue, last_such.
    exact (lookup_loop_locf (fun d => d) (fun a b' H => Z.lt_le_incl _ _ H)
             series (pt_date p) None Hasc). }
  split.
  - intros k series Hk Hasc. rewrite (Hb k (obj_get_In _ _ _ Hk)), Hk, (Hlv _ Hasc).
    destruct (last_such _ series); reflexivity.
  - intros k series Hk Hasc. rewrite (Ho k (obj_get_In _ _ _ Hk)), Hk, (Hlv _ Hasc).
    destruct (last_such _ series); reflexivity.
Qed.

End ChartProperties.

Lemma rebase_indexed_own_base (v : Q) :
  (~ v == 0 -> rebase VMindexed v (or_one v) == 0) /\
  (v == 0 -> rebase VMindexed v (or_one v) == -100).
Proof.
  split; [apply rebase_indexed_self|]. intros Hv. unfold or_one.
  rewrite (proj2 (Qeq_bool_iff v 0) Hv). simpl. rewrite Hv. reflexivity.
Qed.

(** C8 (as amended): in indexed mode every series is rebased against its
    own first in-window value [V0], as [(value / (V0 || 1) - 1) * 100]:
    - the Portfolio field of the first row (the portfolio's own first row)
      is 0 when the portfolio's first value is non-zero, and -100 when it
      is zero (the base [0 || 1] is then 1);
    - in every row, a benchmark or overlay series has no field while the
      row is dated before the series' first point; in a row where that
      first point is the last one dated at or before the row's date (its
      own first row, unless a later point of the series also precedes that
      row), the field is present and is 0 when [V0] is non-zero and -100
      when [V0] is zero.
    Assumed: the row's field names ("date", "Portfolio", the benchmark keys
    and the "Overlay-" keys) are pairwise distinct. *)
Theorem buildChartData_indexed_first_row (portfolio : list PortfolioPoint)
    (benchmarks overlays : Obj (list PricePoint)) :
  List.NoDup ("date" :: "Portfolio" ::
              map fst benchmarks ++ map (fun k => "Overlay-" ++ k) (map fst overlays))%string ->
  (forall p0 ps, portfolio = p0 :: ps ->
     exists row rows,
       buildChartData portfolio benchmarks overlays VMindexed = row :: rows /\
       exists x, obj_get "Portfolio" row = Some (CNum x) /\
         (~ pt_value p0 == 0 -> x == 0) /\ (pt_value p0 == 0 -> x == -100)) /\
  Forall2 (fun p row =>
     (forall k pt rest, obj_get k benchmarks = Some (pt :: rest) ->
        ((pt_date p < pp_date pt)%Z -> obj_get k row = None) /\
        ((pp_date pt <= pt_date p)%Z ->
         (forall q rest', rest = q :: rest' -> (pt_date p < pp_date q)%Z) ->
         exists x, obj_get k row = Some (CNum x) /\
           (~ pp_value pt == 0 -> x == 0) /\ (pp_value pt == 0 -> x == -100))) /\
     (forall k pt rest, obj_get k overlays = Some (pt :: rest) ->
        ((pt_date p < pp_date pt)%Z -> obj_get ("Overlay-" ++ k)%string row = None) /\
        ((pp_date pt <= pt_date p)%Z ->
         (forall q rest', rest = q :: rest' -> (pt_date p < pp_date q)%Z) ->
         exists x, obj_get ("Overlay-" ++ k)%string row = Some (CNum x) /\
           (~ pp_value pt == 0 -> x == 0) /\ (pp_value pt == 0 -> x == -100))))
    portfolio (buildChartData portfolio benchmarks overlays VMindexed).
Proof.
  intros Hnd. destruct (field_names_split _ _ Hnd) as [HB HO].
  split.
  - intros p0 ps ->. rewrite buildChartData_as_map by assumption.
    eexists _, _. split; [reflexivity|].
    destruct (chart_row_fields VMindexed (or_one (pt_value p0)) benchmarks
                (map (fun '(k, s) => (k, first_value_or_one s)) benchmarks) overlays
                (map (fun '(k, s) => (k, first_value_or_one s)) overlays) p0 Hnd)
      as (_ & Hp & _ & _).
    rewrite Hp. eexists. split; [reflexivity|]. apply rebase_indexed_own_base.
  - destruct portfolio as [|p0 ps]; [constructor|].
    rewrite buildChartData_as_map by assumption.
    apply Forall2_map_self. intros p _.
    destruct (chart_row_fields VMindexed (or_one (pt_value p0)) benchmarks
                (map (fun '(k, s) => (k, first_value_or_one s)) benchmarks) overlays
                (map (fun '(k, s) => (k, first_value_or_one s)) overlays) p Hnd)
      as (_ & _ & Hb & Ho).
    split.
    + intros k pt rest Hk. rewrite (Hb k (obj_get_In _ _ _ Hk)), Hk. split.
      * intros Hlt. rewrite lookupValue_after by exact Hlt. reflexivity.
      * intros Hle Hnext. rewrite lookupValue_first by assumption.
        rewrite obj_get_map, Hk. cbn [option_map first_value_or_one].
        eexists. split; [reflexivity|]. apply rebase_indexed_own_base.
    + intros k pt rest Hk. rewrite (Ho k (obj_get_In _ _ _ Hk)), Hk. split.
      * intros Hlt. rewrite lookupValue_after by exact Hlt. reflexivity.
      * intros Hle Hnext. rewrite lookupValue_first by assumption.
        rewrite obj_get_map, Hk. cbn [option_map first_value_or_one].
        eexists. split; [reflexivity|]. apply rebase_indexed_own_base.
Qed.

(** ** Witnesses and counterexamples *)

Lemma computeMetrics_scenario_100_110_99_eval :
  totalReturn (computeMetrics sample_sqrt sample_pow sample_series3) = Some (-0.01).
Proof. vm_compute. reflexivity. Qed.

Lemma computeMetrics_short_all_null_witness :
  (length [sample_point 0 100] < 2)%nat /\
  totalReturn (computeMetrics sample_sqrt sample_pow [sample_point 0 100]) = None.
Proof.
  split; [simpl; lia|].
  exact (proj1 (computeMetrics_short_all_null sample_sqrt sample_pow
                  [sample_point 0 100] ltac:(simpl; lia))).
Defined.

Lemma computeMetrics_volatility_witness :
  (2 <= length sample_series3)%nat /\
  volatility (computeMetrics sample_sqrt sample_pow sample_series3) =
  match spec_daily_returns sample_series3 with
  | [] => None
  | rs => Some (spec_pop_stddev sample_sqrt rs * sample_sqrt 252)
  end.
Proof.
  split; [simpl; lia|].
  apply computeMetrics_volatility. simpl; lia.
Defined.

Lemma computeMetrics_annualized_witness :
  [sample_point 1 110; sample_point 2 99] <> [] /\
  span_days (sample_point 0 100) (sample_point 2 99) ==
    inject_Z (spec_calendar_days (sample_point 0 100) (sample_point 2 99)).
Proof.
  split; [discriminate|].
  exact (proj1 (computeMetrics_annualized sample_sqrt sample_pow (sample_point 0 100)
                  [sample_point 1 110; sample_point 2 99] ltac:(discriminate))).
Defined.

Lemma computeHoldingPerformance_no_positions_witness :
  pr_positions sample_payload_no_positions = [] /\
  computeHoldingPerformance sample_payload_no_positions (parseDate 0) (parseDate 10) = [].
Proof.
  split; [reflexivity|].
  apply computeHoldingPerformance_no_positions. reflexivity.
Defined.

(** C3 fails on a single point: computeMetrics returns the all-null record,
    so maxDrawdown is null there, not 0. *)
Lemma computeMetrics_maxDrawdown_single_point_null :
  maxDrawdown (computeMetrics sample_sqrt sample_pow [sample_point 0 100]) = None.
Proof. reflexivity. Qed.

Lemma computeMetrics_maxDrawdown_props_witness :
  (2 <= length [sample_point 0 100; sample_point 1 90; sample_point 2 80])%nat /\
  nonincreasing (map pt_value [sample_point 0 100; sample_point 1 90; sample_point 2 80]) /\
  0 < List.hd 0 (map pt_value [sample_point 0 100; sample_point 1 90; sample_point 2 80]) /\
  exists dd, maxDrawdown (computeMetrics sample_sqrt sample_pow
                            [sample_point 0 100; sample_point 1 90; sample_point 2 80])
             = Some dd /\
    dd == 1 - list_min (map pt_value [sample_point 0 100; sample_point 1 90; sample_point 2 80])
              / list_max (map pt_value [sample_point 0 100; sample_point 1 90; sample_point 2 80]).
Proof.
  assert (Hl : (2 <= length [sample_point 0 100; sample_point 1 90; sample_point 2 80])%nat)
    by (simpl; lia).
  assert (Hn : nonincreasing (map pt_value [sample_point 0 100; sample_point 1 90;
                                            sample_point 2 80])).
  { simpl. repeat split; apply Qle_bool_iff; reflexivity. }
  assert (Hp : 0 < List.hd 0 (map pt_value [sample_point 0 100; sample_point 1 90;
                                             sample_point 2 80])).
  { simpl. apply Qltb_true. reflexivity. }
  split; [exact Hl|]. split; [exact Hn|]. split; [exact Hp|].
  exact (proj1 (proj2 (proj2 (proj2 (computeMetrics_maxDrawdown_props sample_sqrt sample_pow
           [sample_point 0 100; sample_point 1 90; sample_point 2 80])))) Hl Hn Hp).
Defined.

(** C2 fails on its own scenario: with portfolio days 0, 1, 2 and benchmark
    days 0 and 2, no pair of returns is formed at all (both consecutive pairs
    involve day 1), so nothing "spanning" days 0 to 2 contributes. *)
Lemma computeRelativeMetrics_gap_no_pair :
  aligned_returns sample_series3 sample_bench_gap = ([], []) /\
  computeRelativeMetrics sample_sqrt sample_series3 sample_bench_gap = (None, None).
Proof. split; vm_compute; reflexivity. Qed.

Lemma computeRelativeMetrics_alignment_witness :
  (0 < 1 < 2)%Z /\
  aligned_returns sample_series3 sample_bench_gap = ([], []).
Proof.
  split; [lia|].
  exact (proj1 (proj2 (proj2 (computeRelativeMetrics_alignment sample_sqrt))
                  (sample_point 0 100) (sample_point 1 110) (sample_point 2 99) 5 6
                  ltac:(simpl; lia))).
Defined.

(** C1 fails: 1 share of X held throughout, no price of X at or before the
    start (day 1), price 10 at the end (day 10): the start price is 0, not
    the end price, so the gain is 10, not 0. *)
Lemma computeHoldingPerformance_start_price_zero :
  priceAt (pr_price_series sample_payload !! "X"%string) (parseDate 1) = None /\
  map hs_shares (computeHoldingPerformance sample_payload (parseDate 1) (parseDate 10)) = [1] /\
  map hs_gain_abs (computeHoldingPerformance sample_payload (parseDate 1) (parseDate 10))
    = [Some 10].
Proof. vm_compute. split; [reflexivity | split; reflexivity]. Qed.

Lemma computeHoldingPerformance_missing_start_price_witness :
  priceAt (pr_price_series sample_payload !! hs_symbol sample_holding) (parseDate 1) = None /\
  exists r, In r (computeHoldingPerformance sample_payload (parseDate 1) (parseDate 10)) /\
            hs_gain_pct r = None.
Proof.
  assert (Hp : priceAt (pr_price_series sample_payload !! hs_symbol sample_holding)
                       (parseDate 1) = None) by (vm_compute; reflexivity).
  split; [exact Hp|].
  destruct (computeHoldingPerformance_missing_start_price sample_payload (parseDate 1)
              (parseDate 10) (mkPositionState 0 {[ "X"%string := 1 ]} 0) [] sample_holding
              eq_refl (or_introl eq_refl) Hp) as (r & Hin & _ & _ & _ & Hpct).
  exists r. split; [exact Hin | exact Hpct].
Defined.

(** C8 fails when a series' first in-window value is 0: its base is
    [0 || 1 = 1], so at its first row it shows -100, not 0.  Here the
    portfolio starts at 0, and so does the benchmark "SPY". *)
Lemma buildChartData_first_row_not_zero :
  option_map (obj_get "Portfolio")
    (hd_error (buildChartData [sample_point 0 0; sample_point 1 10] [] [] VMindexed))
    = Some (Some (CNum (-100))) /\
  option_map (obj_get "SPY")
    (hd_error (buildChartData sample_series3
                 [("SPY"%string, [mkPricePoint 0 0; mkPricePoint 1 5])] [] VMindexed))
    = Some (Some (CNum (-100))).
Proof. split; vm_compute; reflexivity. Qed.

Lemma buildChartData_indexed_first_row_witness :
  List.NoDup ("date" :: "Portfolio" ::
              map fst sample_benchmarks ++
              map (fun k => "Overlay-" ++ k) (map fst sample_overlays))%string /\
  exists row rows,
    buildChartData sample_series3 sample_benchmarks sample_overlays VMindexed = row :: rows.
Proof.
  assert (Hnd : List.NoDup ("date" :: "Portfolio" ::
              map fst sample_benchmarks ++
              map (fun k => "Overlay-" ++ k) (map fst sample_overlays))%string).
  { simpl. repeat constructor; simpl; intros H; repeat destruct H as [H|H];
      try discriminate H; exact H. }
  split; [exact Hnd|].
  destruct (proj1 (buildChartData_indexed_first_row sample_series3 sample_benchmarks
                     sample_overlays Hnd) (sample_point 0 100)
                  [sample_point 1 110; sample_point 2 99] eq_refl)
    as (row & rows & Heq & _).
  exists row, rows. exact Heq.
Defined.

(** ** Witnesses of the additional properties *)

Lemma filterSeries_inverted_witness :
  (parseDate 0 < parseDate 1)%Z /\
  filterSeries pp_date sample_bench_gap (parseDate 1) (parseDate 0) = [].
Proof.
  assert (H : (parseDate 0 < parseDate 1)%Z) by (unfold parseDate; lia).
  split; [exact H|].
  apply (filterSeries_inverted pp_date sample_bench_gap (parseDate 1) (parseDate 0) H).
Defined.

Lemma toggle_toggle_absent_witness :
  ~ In "SPY"%string ["AAPL"%string] /\
  toggle "SPY" (toggle "SPY" ["AAPL"%string]) = ["AAPL"%string].
Proof.
  assert (H : ~ In "SPY"%string ["AAPL"%string]) by (simpl; intros [H|[]]; discriminate H).
  split; [exact H|]. apply (toggle_toggle_absent "SPY" ["AAPL"%string] H).
Defined.

Lemma toggle_membership_witness :
  List.NoDup ["AAPL"%string; "SPY"%string] /\
  List.NoDup (toggle "SPY" ["AAPL"%string; "SPY"%string]) /\
  ~ In "SPY"%string (toggle "SPY" ["AAPL"%string; "SPY"%string]).
Proof.
  assert (H : List.NoDup ["AAPL"%string; "SPY"%string]).
  { repeat constructor; simpl; intros H; repeat destruct H as [H|H];
      try discriminate H; exact H. }
  destruct (toggle_membership "SPY" _ H) as (_ & _ & Hnd & Hin).
  split; [exact H|]. split; [exact Hnd|].
  intros Hy. apply Hin in Hy as [[_ Hne]|[_ Hn]]; [apply Hne; reflexivity|].
  apply Hn. simpl. auto.
Defined.

Lemma rangeBounds_within_witness :
  (forall d n, (0 < n)%Z -> (d - n * 86400000 <= d)%Z) /\ (0 <= 10)%Z /\
  (fst (rangeBounds_of (fun d n => d - n * 86400000)%Z 0%Z 10%Z R1M) <=
   snd (rangeBounds_of (fun d n => d - n * 86400000)%Z 0%Z 10%Z R1M))%Z.
Proof.
  assert (Hb : forall d n, (0 < n)%Z -> (d - n * 86400000 <= d)%Z) by (intros; lia).
  assert (Hd : (0 <= 10)%Z) by lia.
  split; [exact Hb|]. split; [exact Hd|].
  exact (proj2 (rangeBounds_within (fun d n => d - n * 86400000)%Z 0%Z 10%Z R1M) Hb Hd).
Defined.

Lemma priceAt_last_observation_witness :
  ascending pp_date sample_bench_gap /\
  priceAt (Some sample_bench_gap) (parseDate 1) =
  option_map pp_value
    (last_such (fun p => Z.leb (parseDate (pp_date p)) (parseDate 1)) sample_bench_gap).
Proof.
  assert (H : ascending pp_date sample_bench_gap) by (simpl; lia).
  split; [exact H|]. apply (priceAt_last_observation sample_bench_gap (parseDate 1) H).
Defined.

Lemma findPositionAt_last_snapshot_witness :
  ascending ps_date [mkPositionState 0 ∅ 0; mkPositionState 3 ∅ 5] /\
  findPositionAt [mkPositionState 0 ∅ 0; mkPositionState 3 ∅ 5] (parseDate 2) =
  last_such (fun p => Z.leb (parseDate (ps_date p)) (parseDate 2))
    [mkPositionState 0 ∅ 0; mkPositionState 3 ∅ 5].
Proof.
  assert (H : ascending ps_date [mkPositionState 0 ∅ 0; mkPositionState 3 ∅ 5])
    by (simpl; lia).
  split; [exact H|]. apply (findPositionAt_last_snapshot _ (parseDate 2) H).
Defined.

Lemma computeHoldingPerformance_sorted_witness :
  pr_positions sample_payload = [mkPositionState 0 {[ "X"%string := 1 ]} 0] /\
  sorted_desc (computeHoldingPerformance sample_payload (parseDate 0) (parseDate 10)).
Proof.
  assert (H : pr_positions sample_payload = [mkPositionState 0 {[ "X"%string := 1 ]} 0])
    by reflexivity.
  split; [exact H|].
  exact (proj1 (computeHoldingPerformance_sorted sample_payload _ [] (parseDate 0)
                  (parseDate 10) H)).
Defined.

Lemma computeHoldingPerformance_no_start_shares_witness :
  exists r, In r (computeHoldingPerformance sample_payload (parseDate (-1)) (parseDate 10)) /\
            hs_gain_pct r = None.
Proof.
  assert (Hin : In (hd sample_holding
                      (computeHoldingPerformance sample_payload (parseDate (-1)) (parseDate 10)))
                   (computeHoldingPerformance sample_payload (parseDate (-1)) (parseDate 10)))
    by (vm_compute; left; reflexivity).
  eexists. split; [exact Hin|].
  exact (proj1 (computeHoldingPerformance_no_start_shares sample_payload (parseDate (-1))
                  (parseDate 10) _ Hin ltac:(vm_compute; exact I))).
Defined.

Lemma computeRelativeMetrics_flat_benchmark_witness :
  (forall x, x == 0 -> sample_sqrt x == 0) /\
  Forall (fun b => pp_value b == 5) [mkPricePoint 0 5; mkPricePoint 1 5; mkPricePoint 2 5] /\
  computeRelativeMetrics sample_sqrt sample_series3
    [mkPricePoint 0 5; mkPricePoint 1 5; mkPricePoint 2 5] = (None, None).
Proof.
  assert (Hs : forall x, x == 0 -> sample_sqrt x == 0) by (intros x Hx; exact Hx).
  assert (Hf : Forall (fun b => pp_value b == 5)
                 [mkPricePoint 0 5; mkPricePoint 1 5; mkPricePoint 2 5])
    by (repeat constructor).
  split; [exact Hs|]. split; [exact Hf|].
  exact (computeRelativeMetrics_flat_benchmark sample_sqrt Hs sample_series3 _ 5 Hf).
Defined.

Lemma computeMaxDrawdown_at_most_one_witness :
  0 < 100 /\ Forall (fun v => 0 <= v) [110; 99] /\
  exists dd, computeMaxDrawdown [100; 110; 99] = Some dd /\ 0 <= dd <= 1.
Proof.
  assert (H0 : 0 < 100) by (vm_compute; reflexivity).
  assert (Hv : Forall (fun v => 0 <= v) [110; 99])
    by (repeat constructor; vm_compute; discriminate).
  split; [exact H0|]. split; [exact Hv|].
  exact (computeMaxDrawdown_at_most_one 100 [110; 99] H0 Hv).
Defined.

Lemma dashboard_beta_first_benchmark_witness :
  "SPY"%string <> ""%string /\
  ({[ "SPY"%string := sample_bench_gap ]} : gmap string (list PricePoint)) !! "SPY"%string
    = Some sample_bench_gap /\
  (beta (dashboard_metrics sample_sqrt sample_pow sample_series3 ["SPY"%string]
           (filteredBenchmarks_of {[ "SPY"%string := sample_bench_gap ]} ["SPY"%string]
              (parseDate 0) (parseDate 2))),
   correlation (dashboard_metrics sample_sqrt sample_pow sample_series3 ["SPY"%string]
           (filteredBenchmarks_of {[ "SPY"%string := sample_bench_gap ]} ["SPY"%string]
              (parseDate 0) (parseDate 2)))) =
  computeRelativeMetrics sample_sqrt sample_series3
    (filterSeries pp_date sample_bench_gap (parseDate 0) (parseDate 2)).
Proof.
  assert (H2 : "SPY"%string <> ""%string) by discriminate.
  assert (H3 : ({[ "SPY"%string := sample_bench_gap ]} : gmap string (list PricePoint))
                 !! "SPY"%string = Some sample_bench_gap) by (vm_compute; reflexivity).
  split; [exact H2|]. split; [exact H3|].
  exact (dashboard_beta_first_benchmark sample_sqrt sample_pow sample_series3 _ "SPY" []
           sample_bench_gap (parseDate 0) (parseDate 2) H2 H3).
Defined.

Lemma buildChartData_rows_witness :
  List.NoDup ("date" :: "Portfolio" ::
              map fst sample_benchmarks ++
              map (fun k => "Overlay-" ++ k) (map fst sample_overlays))%string /\
  length (buildChartData sample_series3 sample_benchmarks sample_overlays VMvalue) = 3%nat.
Proof.
  assert (Hnd : List.NoDup ("date" :: "Portfolio" ::
              map fst sample_benchmarks ++
              map (fun k => "Overlay-" ++ k) (map fst sample_overlays))%string).
  { simpl. repeat constructor; simpl; intros H; repeat destruct H as [H|H];
      try discriminate H; exact H. }
  split; [exact Hnd|].
  pose proof (buildChartData_rows sample_series3 sample_benchmarks sample_overlays VMvalue Hnd)
    as HF.
  apply Forall2_length in HF. rewrite <- HF. reflexivity.
Defined.

Lemma buildChartData_value_columns_witness :
  List.NoDup ("date" :: "Portfolio" ::
              map fst sample_benchmarks ++
              map (fun k => "Overlay-" ++ k) (map fst sample_overlays))%string /\
  Forall2 (fun _ _ => True) sample_series3
    (buildChartData sample_series3 sample_benchmarks sample_overlays VMvalue).
Proof.
  assert (Hnd : List.NoDup ("date" :: "Portfolio" ::
              map fst sample_benchmarks ++
              map (fun k => "Overlay-" ++ k) (map fst sample_overlays))%string).
  { simpl. repeat constructor; simpl; intros H; repeat destruct H as [H|H];
      try discriminate H; exact H. }
  split; [exact Hnd|].
  pose proof (buildChartData_value_columns sample_series3 sample_benchmarks sample_overlays Hnd)
    as HF.
  eapply Forall2_impl; [exact HF|]. intros; exact I.
Defined.
